(** * MemeGen AI: the overlay store, the drag controller and the exporter

    A shallow embedding of [types.ts], of the [App] component (state
    setters, [addText], [updateText], [removeText], the image handlers and
    [handleDownload]) and of the [MemeCanvas] component (the mouse
    handlers and the per-annotation controls), followed by the properties
    of the specification that concern them.

    React state is modelled by explicit state passing: one record holds
    the [useState] cells of both components, the [dragStartRef] cell and
    the effects that leave the program ([alert] notices and downloads).
    Every handler is a function on that record; what it reads from the
    environment (clock, DOM metrics, results of the asynchronous
    services) is passed as an argument, and so is, for the pointer-move
    handler, the render whose props it closes over. *)

From Stdlib Require Import ZArith List String Ascii Bool Lia.
From Stdlib Require Import NArith.
From Stdlib Require Import Floats.SpecFloat.
From Stdlib Require Import DecimalString DecimalZ.
Import ListNotations.

Set Implicit Arguments.

(** ** Numbers

    A JavaScript [number] is an IEEE 754 binary64 value.  The handlers
    only use [+], [-], [*], [/], [Math.min], [Math.max] and integer
    literals; they are written over this interface, and [Binary64.number]
    gives the operations their meaning: round to nearest even, with the
    infinities, the signed zeros and NaN. *)

Class Number (num : Type) : Type := {
  nadd : num -> num -> num;
  nsub : num -> num -> num;
  nmul : num -> num -> num;
  ndiv : num -> num -> num;
  Math_min : num -> num -> num;
  Math_max : num -> num -> num;
  lit : Z -> num
}.

Declare Scope num_scope.
Delimit Scope num_scope with num.
Infix "+" := nadd : num_scope.
Infix "-" := nsub : num_scope.
Infix "*" := nmul : num_scope.
Infix "/" := ndiv : num_scope.

Module Binary64.

Definition prec : Z := 53.
Definition emax : Z := 1024.

Definition add := SFadd prec emax.
Definition sub := SFsub prec emax.
Definition mul := SFmul prec emax.
Definition div := SFdiv prec emax.

(** An integer literal, rounded to nearest even. *)
Definition ofZ (z : Z) : spec_float := binary_normalize prec emax z 0 false.

(** [Math.min]: NaN if either argument is NaN, and [-0] below [+0]. *)
Definition min (a b : spec_float) : spec_float :=
  match SFcompare a b with
  | None => S754_nan
  | Some Lt => a
  | Some Gt => b
  | Some Eq =>
      match a, b with
      | S754_zero sa, S754_zero sb => S754_zero (sa || sb)
      | _, _ => a
      end
  end.

(** [Math.max]: NaN if either argument is NaN, and [+0] above [-0]. *)
Definition max (a b : spec_float) : spec_float :=
  match SFcompare a b with
  | None => S754_nan
  | Some Lt => b
  | Some Gt => a
  | Some Eq =>
      match a, b with
      | S754_zero sa, S754_zero sb => S754_zero (sa && sb)
      | _, _ => a
      end
  end.

#[global] Instance number : Number spec_float :=
  {| nadd := add; nsub := sub; nmul := mul; ndiv := div;
     Math_min := min; Math_max := max; lit := ofZ |}.

(** [Number.isNaN] and the two infinities. *)
Definition isNaN (a : spec_float) : bool :=
  match a with S754_nan => true | _ => false end.

Definition isInfinite (a : spec_float) : bool :=
  match a with S754_infinity _ => true | _ => false end.

Definition isFinite (a : spec_float) : bool :=
  negb (isNaN a || isInfinite a).

(** Structural equality of two binary64 values ([Object.is]). *)
Definition same (a b : spec_float) : bool :=
  match a, b with
  | S754_zero sa, S754_zero sb => Bool.eqb sa sb
  | S754_infinity sa, S754_infinity sb => Bool.eqb sa sb
  | S754_nan, S754_nan => true
  | S754_finite sa ma ea, S754_finite sb mb eb =>
      Bool.eqb sa sb && Pos.eqb ma mb && Z.eqb ea eb
  | _, _ => false
  end.

End Binary64.

(** ** Strings of the host language *)

(** [Number.prototype.toString] at an integer: its decimal digits. *)
Definition toString (z : Z) : string := NilZero.string_of_int (Z.to_int z).

(** A string of this development stands for the JavaScript string of
    which it is the UTF-8 encoding, the reading Rocq gives its own string
    literals.  [code_points] reads the text back, each code point with
    the bytes it was read from; a byte that starts no well-formed
    sequence is read as the code point of its own value. *)
Record Char : Type := { code : N; first_byte : ascii; more_bytes : string }.

Definition continuation (c : ascii) : bool :=
  let n := N_of_ascii c in ((128 <=? n) && (n <? 192))%N.

Definition payload (c : ascii) : N := (N_of_ascii c - 128)%N.

Fixpoint code_points (s : string) : list Char :=
  match s with
  | EmptyString => []
  | String a r =>
      let n := N_of_ascii a in
      let single :=
        {| code := n; first_byte := a; more_bytes := EmptyString |}
        :: code_points r in
      match r with
      | EmptyString => single
      | String b r2 =>
          let cp2 := ((n - 192) * 64 + payload b)%N in
          if ((194 <=? n) && (n <? 224))%N && continuation b then
            {| code := cp2; first_byte := a; more_bytes := String b EmptyString |}
            :: code_points r2
          else
            match r2 with
            | EmptyString => single
            | String c r3 =>
                let cp3 := ((n - 224) * 4096 + payload b * 64 + payload c)%N in
                if ((224 <=? n) && (n <? 240) && (2048 <=? cp3))%N
                   && continuation b && continuation c then
                  {| code := cp3; first_byte := a;
                     more_bytes := String b (String c EmptyString) |}
                  :: code_points r3
                else
                  match r3 with
                  | EmptyString => single
                  | String d r4 =>
                      let cp4 := ((n - 240) * 262144 + payload b * 4096
                                  + payload c * 64 + payload d)%N in
                      if ((240 <=? n) && (n <? 245) && (65536 <=? cp4)
                          && (cp4 <=? 1114111))%N
                         && continuation b && continuation c && continuation d then
                        {| code := cp4; first_byte := a;
                           more_bytes := String b (String c (String d EmptyString)) |}
                        :: code_points r4
                      else single
                  end
            end
      end
  end.

(** White space and line terminators of ECMAScript, which
    [String.prototype.trim] removes: TAB, LF, VT, FF, CR, SPACE, NBSP,
    U+1680, U+2000 to U+200A, U+2028, U+2029, U+202F, U+205F, U+3000 and
    U+FEFF. *)
Definition isWhiteSpace (cp : N) : bool :=
  ((9 <=? cp) && (cp <=? 13) || (cp =? 32) || (cp =? 160) || (cp =? 5760)
   || (8192 <=? cp) && (cp <=? 8202) || (cp =? 8232) || (cp =? 8233)
   || (cp =? 8239) || (cp =? 8287) || (cp =? 12288) || (cp =? 65279))%N.

Fixpoint trimStart (l : list Char) : list Char :=
  match l with
  | [] => []
  | c :: rest => if isWhiteSpace (code c) then trimStart rest else l
  end.

Definition trimEnd (l : list Char) : list Char :=
  rev (trimStart (rev l)).

(** The bytes of a text read by [code_points]. *)
Fixpoint bytes_of (l : list Char) : string :=
  match l with
  | [] => EmptyString
  | c :: rest => String (first_byte c) (append (more_bytes c) (bytes_of rest))
  end.

Definition trim (s : string) : string :=
  bytes_of (trimEnd (trimStart (code_points s))).

(** Truthiness of a string ([!s] is [negb (truthy s)]). *)
Definition truthy (s : string) : bool := negb (String.eqb s EmptyString).

(** ** [types.ts] *)

Section Model.

Context {num : Type} {NUM : Number num}.
Local Open Scope num_scope.
Local Open Scope string_scope.

Record MemeText : Type := {
  id : string;
  content : string;
  x : num;
  y : num;
  fontSize : num;
  color : string
}.

(** [Partial<MemeText>]: every field optional. *)
Record Partial_MemeText : Type := {
  id_opt : option string;
  content_opt : option string;
  x_opt : option num;
  y_opt : option num;
  fontSize_opt : option num;
  color_opt : option string
}.

Record Template : Type := {
  template_id : string;
  template_url : string;
  template_name : string
}.

Inductive AppMode : Type := CAPTION | EDIT.

(** The empty patch and the object literals the callers build. *)
Definition no_updates : Partial_MemeText :=
  {| id_opt := None; content_opt := None; x_opt := None; y_opt := None;
     fontSize_opt := None; color_opt := None |}.

Definition updates_content (v : string) : Partial_MemeText :=
  {| id_opt := None; content_opt := Some v; x_opt := None; y_opt := None;
     fontSize_opt := None; color_opt := None |}.

Definition updates_color (v : string) : Partial_MemeText :=
  {| id_opt := None; content_opt := None; x_opt := None; y_opt := None;
     fontSize_opt := None; color_opt := Some v |}.

Definition updates_xy (vx vy : num) : Partial_MemeText :=
  {| id_opt := None; content_opt := None; x_opt := Some vx; y_opt := Some vy;
     fontSize_opt := None; color_opt := None |}.

Definition updates_fontSize (v : num) : Partial_MemeText :=
  {| id_opt := None; content_opt := None; x_opt := None; y_opt := None;
     fontSize_opt := Some v; color_opt := None |}.

(** Object spread [{ ...t, ...updates }]. *)
Definition spread (t : MemeText) (updates : Partial_MemeText) : MemeText :=
  {| id := match id_opt updates with Some v => v | None => id t end;
     content := match content_opt updates with Some v => v | None => content t end;
     x := match x_opt updates with Some v => v | None => x t end;
     y := match y_opt updates with Some v => v | None => y t end;
     fontSize := match fontSize_opt updates with Some v => v | None => fontSize t end;
     color := match color_opt updates with Some v => v | None => color t end |}.

(** ** The DOM as the handlers read it *)

(** A pointer position ([clientX], [clientY]) and the [dragStartRef] cell. *)
Record Point : Type := { clientX : num; clientY : num }.

(** [getBoundingClientRect()]. *)
Record DOMRect : Type := { width : num; height : num }.

(** The [<img>] element of the canvas container. *)
Record ImgEl : Type := {
  naturalWidth : num;
  naturalHeight : num;
  img_rect : DOMRect
}.

(** The element behind [canvasRef]. *)
Record Container : Type := {
  container_rect : DOMRect;
  querySelector_img : option ImgEl
}.

(** What [handleDownload] finds: [canvasRef.current], and whether
    [canvas.getContext('2d')] returns a context. *)
Record Dom : Type := {
  canvasRef_current : option Container;
  getContext_2d : bool
}.

(** Calls on the 2D context, with the context attributes each one reads. *)
Inductive CanvasOp : Type :=
| drawImage (dx dy : num)
| strokeText (text : string) (tx ty : num) (font_px : num)
    (strokeStyle : string) (lineWidth : num)
| fillText (text : string) (tx ty : num) (font_px : num) (fillStyle : string).

(** A file handed to the user: the link's [download] name and the canvas
    behind [toDataURL]. *)
Record Download : Type := {
  download_name : string;
  canvas_width : num;
  canvas_height : num;
  canvas_ops : list CanvasOp
}.

(** ** State *)

Record State : Type := {
  (* App *)
  image : string;
  texts : list MemeText;
  selectedTextId : option string;
  captions : list string;
  isProcessing : bool;
  mode : AppMode;
  editPrompt : string;
  (* MemeCanvas *)
  isDragging : bool;
  dragStartRef : option Point;
  (* effects *)
  alerts : list string;
  downloads : list Download
}.

Definition initial : State :=
  {| image := "https://picsum.photos/800/600";
     texts := [];
     selectedTextId := None;
     captions := [];
     isProcessing := false;
     mode := CAPTION;
     editPrompt := "";
     isDragging := false;
     dragStartRef := None;
     alerts := [];
     downloads := [] |}.

(** The state setters.  [setTexts] takes the functional form
    [prev => ...] that the handlers use. *)
Definition setImage (v : string) (s : State) : State :=
  {| image := v;
     texts := texts s;
     selectedTextId := selectedTextId s;
     captions := captions s;
     isProcessing := isProcessing s;
     mode := mode s;
     editPrompt := editPrompt s;
     isDragging := isDragging s;
     dragStartRef := dragStartRef s;
     alerts := alerts s;
     downloads := downloads s |}.

Definition setTexts (v : list MemeText -> list MemeText) (s : State) : State :=
  {| image := image s;
     texts := v (texts s);
     selectedTextId := selectedTextId s;
     captions := captions s;
     isProcessing := isProcessing s;
     mode := mode s;
     editPrompt := editPrompt s;
     isDragging := isDragging s;
     dragStartRef := dragStartRef s;
     alerts := alerts s;
     downloads := downloads s |}.

Definition setSelectedTextId (v : option string) (s : State) : State :=
  {| image := image s;
     texts := texts s;
     selectedTextId := v;
     captions := captions s;
     isProcessing := isProcessing s;
     mode := mode s;
     editPrompt := editPrompt s;
     isDragging := isDragging s;
     dragStartRef := dragStartRef s;
     alerts := alerts s;
     downloads := downloads s |}.

Definition setCaptions (v : list string) (s : State) : State :=
  {| image := image s;
     texts := texts s;
     selectedTextId := selectedTextId s;
     captions := v;
     isProcessing := isProcessing s;
     mode := mode s;
     editPrompt := editPrompt s;
     isDragging := isDragging s;
     dragStartRef := dragStartRef s;
     alerts := alerts s;
     downloads := downloads s |}.

Definition setIsProcessing (v : bool) (s : State) : State :=
  {| image := image s;
     texts := texts s;
     selectedTextId := selectedTextId s;
     captions := captions s;
     isProcessing := v;
     mode := mode s;
     editPrompt := editPrompt s;
     isDragging := isDragging s;
     dragStartRef := dragStartRef s;
     alerts := alerts s;
     downloads := downloads s |}.

Definition setMode (v : AppMode) (s : State) : State :=
  {| image := image s;
     texts := texts s;
     selectedTextId := selectedTextId s;
     captions := captions s;
     isProcessing := isProcessing s;
     mode := v;
     editPrompt := editPrompt s;
     isDragging := isDragging s;
     dragStartRef := dragStartRef s;
     alerts := alerts s;
     downloads := downloads s |}.

Definition setEditPrompt (v : string) (s : State) : State :=
  {| image := image s;
     texts := texts s;
     selectedTextId := selectedTextId s;
     captions := captions s;
     isProcessing := isProcessing s;
     mode := mode s;
     editPrompt := v;
     isDragging := isDragging s;
     dragStartRef := dragStartRef s;
     alerts := alerts s;
     downloads := downloads s |}.

Definition setIsDragging (v : bool) (s : State) : State :=
  {| image := image s;
     texts := texts s;
     selectedTextId := selectedTextId s;
     captions := captions s;
     isProcessing := isProcessing s;
     mode := mode s;
     editPrompt := editPrompt s;
     isDragging := v;
     dragStartRef := dragStartRef s;
     alerts := alerts s;
     downloads := downloads s |}.

Definition set_dragStartRef (v : option Point) (s : State) : State :=
  {| image := image s;
     texts := texts s;
     selectedTextId := selectedTextId s;
     captions := captions s;
     isProcessing := isProcessing s;
     mode := mode s;
     editPrompt := editPrompt s;
     isDragging := isDragging s;
     dragStartRef := v;
     alerts := alerts s;
     downloads := downloads s |}.

(** [alert(msg)]: the notice is shown to the user. *)
Definition alert (v : string) (s : State) : State :=
  {| image := image s;
     texts := texts s;
     selectedTextId := selectedTextId s;
     captions := captions s;
     isProcessing := isProcessing s;
     mode := mode s;
     editPrompt := editPrompt s;
     isDragging := isDragging s;
     dragStartRef := dragStartRef s;
     alerts := (alerts s ++ [v])%list;
     downloads := downloads s |}.

(** [link.click()]: the file is offered to the user. *)
Definition link_click (v : Download) (s : State) : State :=
  {| image := image s;
     texts := texts s;
     selectedTextId := selectedTextId s;
     captions := captions s;
     isProcessing := isProcessing s;
     mode := mode s;
     editPrompt := editPrompt s;
     isDragging := isDragging s;
     dragStartRef := dragStartRef s;
     alerts := alerts s;
     downloads := (downloads s ++ [v])%list |}.

(** Statements of a handler run in order: [s |> f |> g] is [f] then [g]. *)
Local Notation "s |> f" := (f s) (at level 45, left associativity, only parsing).

(** [selectedTextId === id], with [selectedTextId : string | null]. *)
Definition strict_eq (sel : option string) (id0 : string) : bool :=
  match sel with
  | Some i => String.eqb i id0
  | None => false
  end.

(** ** [App] *)

Definition TEMPLATES : list Template :=
  [ {| template_id := "1"; template_name := "Distracted Boyfriend";
       template_url := "https://picsum.photos/id/1/800/600" |};
    {| template_id := "2"; template_name := "Drake Hotline";
       template_url := "https://picsum.photos/id/20/800/800" |};
    {| template_id := "3"; template_name := "Two Buttons";
       template_url := "https://picsum.photos/id/30/800/600" |};
    {| template_id := "4"; template_name := "Change My Mind";
       template_url := "https://picsum.photos/id/40/800/600" |} ].

(** *** File handling

    [file] is [e.target.files?.[0]] together with what the reader hands
    to [onload]: [None] when no file was chosen, [Some None] when
    [ev.target?.result] is not a string, [Some (Some url)] otherwise. *)
Definition handleFileUpload (file : option (option string)) (s : State) : State :=
  match file with
  | Some (Some result) =>
      s |> setImage result
        |> setTexts (fun _ => [])  (* Clear texts on new image *)
        |> setCaptions []
  | _ => s
  end.

(** *** Text management

    [now] is the value of [Date.now()]; [initialContent] is [None] when
    the argument is omitted and the default applies. *)
Definition addText (now : Z) (initialContent : option string) (s : State) : State :=
  let newText :=
    {| id := toString now;
       content := match initialContent with
                  | Some c => c
                  | None => "DOUBLE TAP TO EDIT"
                  end;
       x := lit 400;
       y := lit 300;
       fontSize := lit 40;
       color := "#FFFFFF" |} in
  s |> setTexts (fun prev => (prev ++ [newText])%list)
    |> setSelectedTextId (Some (id newText)).

Definition updateText (id0 : string) (updates : Partial_MemeText) (s : State) : State :=
  s |> setTexts (fun prev =>
         map (fun t => if String.eqb (id t) id0 then spread t updates else t) prev).

Definition removeText (id0 : string) (s : State) : State :=
  let s1 := s |> setTexts (fun prev =>
                   filter (fun t => negb (String.eqb (id t) id0)) prev) in
  if strict_eq (selectedTextId s) id0 then s1 |> setSelectedTextId None else s1.

(** *** AI features

    An [async] handler is split at its [await]s: the part that runs at
    the click, and the part that runs when the awaited calls settle.
    The second part only calls setters with values of its own, so it is
    a function of the state it resumes in and of the outcome. *)

(** Magic caption, at the click. *)
Definition handleMagicCaption (s : State) : State :=
  if negb (truthy (image s)) then s
  else s |> setIsProcessing true |> setMode CAPTION |> setCaptions [].

(** Magic caption, settled: [Some suggestions] when [fetch] and
    [generateMagicCaptions] resolved, [None] when one of them threw. *)
Definition handleMagicCaption_settled (outcome : option (list string)) (s : State) : State :=
  match outcome with
  | Some suggestions => s |> setCaptions suggestions
  | None => s |> alert "Failed to generate captions. Try again."
  end |> setIsProcessing false.

(** AI edit, at the click. *)
Definition handleAiEdit (s : State) : State :=
  if negb (truthy (trim (editPrompt s))) || negb (truthy (image s)) then s
  else s |> setIsProcessing true.

(** AI edit, settled: [Some r] when [editImageWithAI] resolved with [r]
    (a data URL or [null]), [None] when an awaited call threw. *)
Definition handleAiEdit_settled (outcome : option (option string)) (s : State) : State :=
  match outcome with
  | Some newImageBase64 =>
      match newImageBase64 with
      | Some url =>
          if truthy url then s |> setImage url |> setEditPrompt ""
          else s |> alert "AI could not edit the image this time."
      | None => s |> alert "AI could not edit the image this time."
      end
  | None => s |> alert "Error editing image. Please try again."
  end |> setIsProcessing false.

(** *** Download

    [scaleX] and [scaleY] are computed and never read, as in the source.
    The stroke width [fontSize * 0.1] is written with [lit 1 / lit 10]:
    the correctly rounded quotient is the binary64 literal [0.1]. *)
Definition handleDownload (dom : Dom) (now : Z) (s : State) : State :=
  match canvasRef_current dom with
  | None => s
  | Some container =>
      match getContext_2d dom, querySelector_img container with
      | true, Some imgEl =>
          let canvas_w := naturalWidth imgEl in
          let canvas_h := naturalHeight imgEl in
          let displayRect := img_rect imgEl in
          let scaleX := naturalWidth imgEl / width displayRect in
          let scaleY := naturalHeight imgEl / height displayRect in
          let draw (text : MemeText) : list CanvasOp :=
            let containerRect := container_rect container in
            let relativeX := x text / width containerRect in
            let relativeY := y text / height containerRect in
            let drawX := relativeX * canvas_w in
            let drawY := relativeY * canvas_h in
            let fontSize := (fontSize text / width containerRect) * canvas_w in
            [ strokeText (content text) drawX drawY fontSize "black"
                (fontSize * (lit 1 / lit 10));
              fillText (content text) drawX drawY fontSize (color text) ] in
          s |> link_click
                 {| download_name := "meme-" ++ toString now ++ ".png";
                    canvas_width := canvas_w;
                    canvas_height := canvas_h;
                    canvas_ops := drawImage (lit 0) (lit 0) :: flat_map draw (texts s) |}
      | _, _ => s
      end
  end.

(** *** Controls rendered by [App] *)

(** The "Random" button. *)
Definition clickRandom (now : Z) (s : State) : State :=
  s |> setImage ("https://picsum.photos/seed/" ++ toString now ++ "/800/600").

(** A template button. *)
Definition clickTemplate (t : Template) (s : State) : State :=
  s |> setImage (template_url t).

(** The toolbar inputs, rendered when [selectedTextId] is truthy. *)
Definition changeContent (value : string) (s : State) : State :=
  match selectedTextId s with
  | Some sel => if truthy sel then s |> updateText sel (updates_content value) else s
  | None => s
  end.

Definition changeColor (value : string) (s : State) : State :=
  match selectedTextId s with
  | Some sel => if truthy sel then s |> updateText sel (updates_color value) else s
  | None => s
  end.

(** The suggestions panel is rendered when
    [(captions.length > 0 || isProcessing) && mode === AppMode.CAPTION];
    it shows one button per caption and a close button. *)
Definition panel_rendered (s : State) : bool :=
  ((0 <? List.length (captions s))%nat || isProcessing s)
  && match mode s with CAPTION => true | EDIT => false end.

Definition clickCaption (idx : nat) (now : Z) (s : State) : State :=
  if panel_rendered s then
    match nth_error (captions s) idx with
    | Some caption => s |> addText now (Some caption)
    | None => s
    end
  else s.

Definition clickClosePanel (s : State) : State :=
  if panel_rendered s then s |> setCaptions [] else s.

(** ** [MemeCanvas]

    [onSelectText], [onUpdateText] and [onRemoveText] are the props that
    [App] binds to [setSelectedTextId], [updateText] and [removeText]. *)

Definition handleMouseDown (e : Point) (id0 : string) (s : State) : State :=
  s |> setSelectedTextId (Some id0)
    |> setIsDragging true
    |> set_dragStartRef (Some {| clientX := clientX e; clientY := clientY e |}).

(** [texts], [selectedTextId] and [isDragging] are the props and state
    of the render that created the handler, passed as [render];
    [dragStartRef.current] is read and written in place, and the update
    that [onUpdateText] queues is applied to the latest collection. *)
Definition handleMouseMove (e : Point) (render : State) (s : State) : State :=
  match isDragging render, selectedTextId render, dragStartRef s with
  | true, Some sel, Some start =>
      if truthy sel then
        let dx := clientX e - clientX start in
        let dy := clientY e - clientY start in
        match find (fun t => String.eqb (id t) sel) (texts render) with
        | Some text => s |> updateText sel (updates_xy (x text + dx) (y text + dy))
        | None => s
        end |> set_dragStartRef (Some {| clientX := clientX e; clientY := clientY e |})
      else s
  | _, _, _ => s
  end.

(** Pointer moves handled one after the other before React renders
    again: every call is the handler of the same render. *)
Definition moves_before_render (es : list Point) (s : State) : State :=
  fold_left (fun live e => handleMouseMove e s live) es s.

Definition handleMouseUp (s : State) : State :=
  s |> setIsDragging false |> set_dragStartRef None.

(** [onClick] of the outer container. *)
Definition clickContainer (s : State) : State :=
  s |> setSelectedTextId None.

(** [onMouseDown] of the [i]-th text layer. *)
Definition mouseDownText (i : nat) (e : Point) (s : State) : State :=
  match nth_error (texts s) i with
  | Some text => s |> handleMouseDown e (id text)
  | None => s
  end.

(** The controls of the [i]-th text layer, rendered when
    [selectedTextId === text.id]: delete, "A+" and "A-". *)
Definition clickTrash (i : nat) (s : State) : State :=
  match nth_error (texts s) i with
  | Some text =>
      if strict_eq (selectedTextId s) (id text) then s |> removeText (id text) else s
  | None => s
  end.

Definition mouseDownIncrease (i : nat) (s : State) : State :=
  match nth_error (texts s) i with
  | Some text =>
      if strict_eq (selectedTextId s) (id text) then
        s |> updateText (id text)
               (updates_fontSize (Math_min (lit 120) (fontSize text + lit 4)))
      else s
  | None => s
  end.

Definition mouseDownDecrease (i : nat) (s : State) : State :=
  match nth_error (texts s) i with
  | Some text =>
      if strict_eq (selectedTextId s) (id text) then
        s |> updateText (id text)
               (updates_fontSize (Math_max (lit 12) (fontSize text - lit 4)))
      else s
  | None => s
  end.

(** ** The program as a transition system

    One constructor per handler the page binds to a user action or to
    the completion of a service call.  A step runs the handler of the
    current render: the page has rendered since the previous event, as
    React does at the end of every click, mouse down, mouse up and input
    event.  Pointer moves may also be handled several to a render; that
    is [moves_before_render]. *)
Inductive Event : Type :=
| FileChosen (file : option (option string))
| RandomClicked (now : Z)
| TemplateClicked (i : nat)
| MagicCaptionClicked
| MagicCaptionSettled (outcome : option (list string))
| EditPromptTyped (value : string)
| AiEditClicked
| AiEditSettled (outcome : option (option string))
| AddTextClicked (now : Z)
| ContentTyped (value : string)
| ColorPicked (value : string)
| ExportClicked (dom : Dom) (now : Z)
| CaptionClicked (idx : nat) (now : Z)
| PanelClosed
| TextMouseDown (i : nat) (e : Point)
| MouseMoved (e : Point)
| MouseReleased
| ContainerClicked
| TrashClicked (i : nat)
| IncreaseMouseDown (i : nat)
| DecreaseMouseDown (i : nat).

Definition step (s : State) (ev : Event) : State :=
  match ev with
  | FileChosen file => handleFileUpload file s
  | RandomClicked now => clickRandom now s
  | TemplateClicked i =>
      match nth_error TEMPLATES i with
      | Some t => clickTemplate t s
      | None => s
      end
  | MagicCaptionClicked => handleMagicCaption s
  | MagicCaptionSettled outcome => handleMagicCaption_settled outcome s
  | EditPromptTyped value => setEditPrompt value s
  | AiEditClicked => handleAiEdit s
  | AiEditSettled outcome => handleAiEdit_settled outcome s
  | AddTextClicked now => addText now None s
  | ContentTyped value => changeContent value s
  | ColorPicked value => changeColor value s
  | ExportClicked dom now => handleDownload dom now s
  | CaptionClicked idx now => clickCaption idx now s
  | PanelClosed => clickClosePanel s
  | TextMouseDown i e => mouseDownText i e s
  | MouseMoved e => handleMouseMove e s s
  | MouseReleased => handleMouseUp s
  | ContainerClicked => clickContainer s
  | TrashClicked i => clickTrash i s
  | IncreaseMouseDown i => mouseDownIncrease i s
  | DecreaseMouseDown i => mouseDownDecrease i s
  end.

Definition run (evs : list Event) (s : State) : State := fold_left step evs s.

(** The clock readings consumed by the additions of a run, in order. *)
Definition add_times (evs : list Event) : list Z :=
  flat_map (fun ev =>
    match ev with
    | AddTextClicked now => [now]
    | CaptionClicked _ now => [now]
    | _ => []
    end) evs.

End Model.

Arguments MemeText : clear implicits.
Arguments Partial_MemeText : clear implicits.
Arguments Point : clear implicits.
Arguments DOMRect : clear implicits.
Arguments ImgEl : clear implicits.
Arguments Container : clear implicits.
Arguments Dom : clear implicits.
Arguments CanvasOp : clear implicits.
Arguments Download : clear implicits.
Arguments State : clear implicits.
Arguments Event : clear implicits.

(** ** Vocabulary of the properties *)

Section Vocabulary.

Context {num : Type} {NUM : Number num}.

(** The fields a patch does not name keep their value, the ones it names
    take the value given. *)
Definition patched_only (t t' : MemeText num) (updates : Partial_MemeText num) : Prop :=
  id t' = match id_opt updates with Some v => v | None => id t end
  /\ content t' = match content_opt updates with Some v => v | None => content t end
  /\ x t' = match x_opt updates with Some v => v | None => x t end
  /\ y t' = match y_opt updates with Some v => v | None => y t end
  /\ fontSize t' = match fontSize_opt updates with Some v => v | None => fontSize t end
  /\ color t' = match color_opt updates with Some v => v | None => color t end.


Definition scaleLength (length : num) (containerSize naturalSize : DOMRect num) : num :=
  ((length * width naturalSize) / width containerSize)%num.




(** The numbers a text call on the canvas is given. *)
Definition text_x (op : CanvasOp num) : option num :=
  match op with
  | strokeText _ tx _ _ _ _ | fillText _ tx _ _ _ => Some tx
  | drawImage _ _ => None
  end.

Definition text_y (op : CanvasOp num) : option num :=
  match op with
  | strokeText _ _ ty _ _ _ | fillText _ _ ty _ _ => Some ty
  | drawImage _ _ => None
  end.

Definition text_font (op : CanvasOp num) : option num :=
  match op with
  | strokeText _ _ _ f _ _ | fillText _ _ _ f _ => Some f
  | drawImage _ _ => None
  end.

(** A page whose container and image have the given displayed and
    natural sizes. *)
Definition page (cw ch nw nh : num) : Dom num :=
  {| canvasRef_current :=
       Some {| container_rect := {| width := cw; height := ch |};
               querySelector_img :=
                 Some {| naturalWidth := nw; naturalHeight := nh;
                         img_rect := {| width := cw; height := ch |} |} |};
     getContext_2d := true |}.

(** The delta of each pointer move: the new position minus the last one
    observed, starting from the position of the pointer down. *)
Fixpoint deltas (last : Point num) (moves : list (Point num)) : list (num * num) :=
  match moves with
  | [] => []
  | p :: rest =>
      (clientX p - clientX last, clientY p - clientY last)%num :: deltas p rest
  end.

(** A position after the given deltas were added to it one by one. *)
Definition apply_deltas (pos : num * num) (ds : list (num * num)) : num * num :=
  fold_left (fun p d => (fst p + fst d, snd p + snd d)%num) ds pos.

(** The first annotation with the given id, as [texts.find] returns it. *)
Definition find_text (id0 : string) (l : list (MemeText num)) : option (MemeText num) :=
  find (fun t => String.eqb (id t) id0) l.

(** What holds of the state all along a drag of the [i]-th layer, whose
    annotation is the first one with its id. *)
Definition dragging (i : nat) (s : State num) (start : Point num)
    (text : MemeText num) : Prop :=
  isDragging s = true
  /\ selectedTextId s = Some (id text)
  /\ dragStartRef s = Some start
  /\ nth_error (texts s) i = Some text
  /\ find_text (id text) (texts s) = Some text.

(** The annotation [addText] builds. *)
Definition added_text (now : Z) (initialContent : option string) : MemeText num :=
  {| id := toString now;
     content := match initialContent with
                | Some c => c
                | None => "DOUBLE TAP TO EDIT"%string
                end;
     x := lit 400; y := lit 300; fontSize := lit 40; color := "#FFFFFF" |}.

(** The patches the page passes to [updateText]: content and colour from
    the toolbar, position from the drag, and the font size from the
    "A+" and "A-" controls of a rendered annotation. *)
Inductive ui_patch (l : list (MemeText num)) : Partial_MemeText num -> Prop :=
| patch_content (v : string) : ui_patch l (updates_content v)
| patch_color (v : string) : ui_patch l (updates_color v)
| patch_xy (vx vy : num) : ui_patch l (updates_xy vx vy)
| patch_increase (text : MemeText num) :
    In text l ->
    ui_patch l (updates_fontSize (Math_min (lit 120) (fontSize text + lit 4)%num))
| patch_decrease (text : MemeText num) :
    In text l ->
    ui_patch l (updates_fontSize (Math_max (lit 12) (fontSize text - lit 4)%num)).

(** What one event can do to the collection. *)
Inductive texts_change (ev : Event num) (l : list (MemeText num))
  : list (MemeText num) -> Prop :=
| change_none : texts_change ev l l
| change_clear : texts_change ev l []
| change_add (now : Z) (c : option string) :
    In now (add_times [ev]) -> texts_change ev l (l ++ [added_text now c])
| change_patch (id0 : string) (u : Partial_MemeText num) :
    ui_patch l u ->
    texts_change ev l
      (map (fun t => if String.eqb (id t) id0 then spread t u else t) l)
| change_remove (id0 : string) :
    texts_change ev l (filter (fun t => negb (String.eqb (id t) id0)) l).

(** Every id of the collection is the decimal string of a clock reading
    already used, and no two annotations share an id. *)
Definition ids_issued (used : list Z) (l : list (MemeText num)) : Prop :=
  NoDup (map (@id num) l)
  /\ forall t, In t l -> exists n, In n used /\ id t = toString n.

End Vocabulary.

(** ** Scenarios on binary64 numbers *)

(** The state after "Add Text" was clicked at clock readings [1000] and
    [2000]: two annotations, the second one selected. *)
Definition two_annotations : State spec_float :=
  run [AddTextClicked 1000%Z; AddTextClicked 2000%Z] initial.

(** A pointer position with integer coordinates. *)
Definition at_px (px py : Z) : Point spec_float :=
  {| clientX := Binary64.ofZ px; clientY := Binary64.ofZ py |}.

(** One annotation, added at the default spot and dragged to [(100,150)]. *)
Definition one_dragged_annotation : State spec_float :=
  run [AddTextClicked 1000%Z; TextMouseDown 0 (at_px 400 300);
       MouseMoved (at_px 100 150); MouseReleased] initial.


(** A page whose image has not loaded: nothing is laid out and the
    natural size is [0x0]. *)
Definition page_not_loaded : Dom spec_float :=
  page (Binary64.ofZ 0) (Binary64.ofZ 0) (Binary64.ofZ 0) (Binary64.ofZ 0).


(** One annotation at the default spot, the pointer just gone down on it
    at [(250,120)], the page rendered. *)
Definition pointer_down : State spec_float :=
  run [AddTextClicked 1000%Z; TextMouseDown 0 (at_px 250 120)] initial.

(** A drag of the only annotation, from the default spot, by the deltas
    [(10,0)], [(0,10)] and [(-5,-5)], the page rendered after each. *)
Definition three_move_drag : State spec_float :=
  run [AddTextClicked 1000%Z; TextMouseDown 0 (at_px 250 120);
       MouseMoved (at_px 260 120); MouseMoved (at_px 260 130);
       MouseMoved (at_px 255 125); MouseReleased] initial.

(** [12 <= f <= 120] on binary64 numbers (false at NaN). *)
Definition within_bounds (f : spec_float) : bool :=
  SFleb (Binary64.ofZ 12) f && SFleb f (Binary64.ofZ 120).

(** The font sizes the controls can reach from the default of 40: the
    multiples of 4 from 12 to 120. *)
Definition font_steps : list Z := map (fun k => (4 * Z.of_nat k)%Z) (seq 3 28).

Definition on_font_step (f : spec_float) : Prop :=
  exists z, In z font_steps /\ f = Binary64.ofZ z.

(** The three facts about a font size on a step, checked step by step:
    it is within the bounds, "A+" takes it to the next step or keeps it
    at 120, "A-" takes it to the previous step or keeps it at 12. *)
Definition step_checked (z : Z) : bool :=
  (within_bounds (Binary64.ofZ z)
    && Binary64.same (Math_min (lit 120) (Binary64.ofZ z + lit 4)%num)
        (Binary64.ofZ (Z.min 120 (z + 4)))
   && Binary64.same (Math_max (lit 12) (Binary64.ofZ z - lit 4)%num)
        (Binary64.ofZ (Z.max 12 (z - 4)))
   && existsb (Z.eqb (Z.min 120 (z + 4))) font_steps
   && existsb (Z.eqb (Z.max 12 (z - 4))) font_steps)%bool.

(** A state whose panel shows three suggestions. *)
Definition three_captions : State spec_float :=
  run [MagicCaptionClicked;
       MagicCaptionSettled (Some ["ONE DOES NOT SIMPLY"; "MONDAYS"; "SUCH WOW"]%string)]
      initial.

(** ** [services/geminiService.ts]

    The calls to the model are the environment's; what the service does
    with the strings it sends and with the response it gets back is
    modelled here. *)

(** [s] without the prefix [p], when [s] starts with it. *)
Fixpoint strip_prefix (p s : string) : option string :=
  match p, s with
  | EmptyString, _ => Some s
  | String a p', String b s' => if Ascii.eqb a b then strip_prefix p' s' else None
  | String _ _, EmptyString => None
  end.

(** The alternatives of [/^data:image\/(png|jpeg|jpg|webp);base64,/], in
    the order the pattern tries them. *)
Definition data_url_prefixes : list string :=
  [ "data:image/png;base64,"; "data:image/jpeg;base64,";
    "data:image/jpg;base64,"; "data:image/webp;base64," ]%string.

(** [s.replace(/^(p1|p2|...)/, '')]. *)
Fixpoint replace_leading (ps : list string) (s : string) : string :=
  match ps with
  | [] => s
  | p :: rest =>
      match strip_prefix p s with
      | Some d => d
      | None => replace_leading rest s
      end
  end.

Definition cleanBase64 (base64 : string) : string :=
  replace_leading data_url_prefixes base64.

(** The response of [ai.models.generateContent], as far as the service
    reads it.  Optional members are options; [data] may be [undefined]. *)
Record InlineData : Type := { data : option string }.

Record Part : Type := { inlineData : option InlineData; part_text : option string }.

Record Content : Type := { parts : option (list Part) }.

Record Candidate : Type := { candidate_content : option Content }.

Record GenerateContentResponse : Type := {
  candidates : option (list Candidate);
  response_text : option string
}.

(** A template literal hole: [undefined] prints as its name. *)
Definition interpolate (v : option string) : string :=
  match v with
  | Some s => s
  | None => "undefined"%string
  end.

(** The loop over the parts of [editImageWithAI]. *)
Fixpoint first_inline_image (ps : list Part) : option string :=
  match ps with
  | [] => None
  | part :: rest =>
      match inlineData part with
      | Some inline => Some ("data:image/png;base64," ++ interpolate (data inline))%string
      | None => first_inline_image rest
      end
  end.

(** [editImageWithAI] after the call: [response] is [None] when
    [generateContent] threw (the service logs and rethrows), and the
    result is then [None]; otherwise it is [Some] of the value returned,
    a data URL or [null]. *)
Definition editImageWithAI_returns (response : option GenerateContentResponse)
  : option (option string) :=
  match response with
  | None => None
  | Some r =>
      Some match candidates r with
           | Some (c :: _) =>
               match candidate_content c with
               | Some ct =>
                   match parts ct with
                   | Some ps => first_inline_image ps
                   | None => None
                   end
               | None => None
               end
           | _ => None
           end
  end.

(** The image bytes and the instruction [editImageWithAI] sends. *)
Definition editImageWithAI_sends (imageBase64 prompt : string) : string * string :=
  (cleanBase64 imageBase64,
   ("Edit the image: " ++ prompt
    ++ ". Maintain the original aspect ratio and main subject composition if possible, unless the prompt asks to change it.")%string).

(** What [handleAiEdit] passes to [editImageWithAI]: the image itself,
    or, for an image that [startsWith('http')], the data URL [fetched]
    that [fetch] and the [FileReader] produce for it; and the prompt. *)
Definition handleAiEdit_sends {num : Type} (fetched : string) (s : State num)
  : string * string :=
  let base64Image :=
    if String.prefix "http" (image s) then fetched else image s in
  editImageWithAI_sends base64Image (editPrompt s).

Unset Elimination Schemes.

(** A JSON value, as [JSON.parse] may return it. *)
Inductive JSON : Type :=
| JNull
| JBool (b : bool)
| JNumber (n : spec_float)
| JString (s : string)
| JArray (items : list JSON)
| JObject (members : list (string * JSON)).

Set Elimination Schemes.

(** The arrays of strings among the JSON values: the values of the type
    [string[]] that [generateMagicCaptions] declares for its result. *)
Fixpoint as_strings (items : list JSON) : option (list string) :=
  match items with
  | [] => Some []
  | JString s :: rest =>
      match as_strings rest with
      | Some l => Some (s :: l)
      | None => None
      end
  | _ :: _ => None
  end.

Definition as_string_array (v : JSON) : option (list string) :=
  match v with
  | JArray items => as_strings items
  | _ => None
  end.

Section MagicCaptions.

(** [JSON.parse]: [None] when it throws. *)
Variable JSON_parse : string -> option JSON.

(** [generateMagicCaptions] after the call: [response] is [None] when
    [generateContent] threw, and the result is [None] when the service
    throws (it logs and rethrows whatever was thrown); otherwise it is
    [Some] of the value returned, which is whatever the parser gives. *)
Definition generateMagicCaptions_returns (response : option GenerateContentResponse)
  : option JSON :=
  match response with
  | None => None
  | Some r =>
      match response_text r with
      | None => Some (JArray [])
      | Some text =>
          let jsonStr := trim text in
          if negb (truthy jsonStr) then Some (JArray []) else JSON_parse jsonStr
      end
  end.

End MagicCaptions.

(** ** What the components render from the state *)

Section Render.

Context {num : Type} {NUM : Number num}.

(** The toolbar inputs exist when [selectedTextId] is truthy. *)
Definition toolbar_rendered (s : State num) : bool :=
  match selectedTextId s with
  | Some sel => truthy sel
  | None => false
  end.

(** [texts.find(t => t.id === selectedTextId)?.content || ''] *)
Definition toolbar_content (s : State num) : string :=
  match selectedTextId s with
  | Some sel =>
      match find (fun t => String.eqb (id t) sel) (texts s) with
      | Some t => if truthy (content t) then content t else ""%string
      | None => ""%string
      end
  | None => ""%string
  end.

(** [texts.find(t => t.id === selectedTextId)?.color || '#FFFFFF'] *)
Definition toolbar_color (s : State num) : string :=
  match selectedTextId s with
  | Some sel =>
      match find (fun t => String.eqb (id t) sel) (texts s) with
      | Some t => if truthy (color t) then color t else "#FFFFFF"%string
      | None => "#FFFFFF"%string
      end
  | None => "#FFFFFF"%string
  end.

(** The layers of [MemeCanvas] that show their controls:
    [selectedTextId === text.id]. *)
Definition controls_rendered (s : State num) : list bool :=
  map (fun text => strict_eq (selectedTextId s) (id text)) (texts s).

End Render.

(** ** Vocabulary of the further properties *)

(** A text of white space only (the empty text included). *)
Definition blank (s : string) : bool :=
  forallb (fun c => isWhiteSpace (code c)) (code_points s).

Section FurtherVocabulary.

Context {num : Type} {NUM : Number num}.

(** The part of the state that the AI flows share with the rest of the
    page: the collection, the selection, the drag and the downloads. *)
Definition overlay_kept (s s' : State num) : Prop :=
  texts s' = texts s
  /\ selectedTextId s' = selectedTextId s
  /\ isDragging s' = isDragging s
  /\ dragStartRef s' = dragStartRef s
  /\ downloads s' = downloads s.

(** The two calls that paint one annotation: its text stroked in black,
    then filled in its colour, at one spot and with one font size. *)
Definition painted (t : MemeText num) (ops : list (CanvasOp num)) : Prop :=
  exists tx ty font_px lineWidth,
    ops = [ strokeText (content t) tx ty font_px "black" lineWidth;
            fillText (content t) tx ty font_px (color t) ].

(** The event shows a notice only if it is one of these. *)
Definition may_alert (ev : Event num) : bool :=
  match ev with
  | MagicCaptionSettled None => true
  | AiEditSettled None => true
  | AiEditSettled (Some None) => true
  | AiEditSettled (Some (Some url)) => negb (truthy url)
  | _ => false
  end.

(** The event hands out a file only if it is an export. *)
Definition may_download (ev : Event num) : bool :=
  match ev with
  | ExportClicked _ _ => true
  | _ => false
  end.

(** Every id in use is a non-empty string: the ids of the collection and
    the selection, if there is one. *)
Definition ids_truthy (s : State num) : Prop :=
  (forall t, In t (texts s) -> truthy (id t) = true)
  /\ (forall sel, selectedTextId s = Some sel -> truthy sel = true).

End FurtherVocabulary.

(** A page that shows an image of [w]x[h] at its natural size. *)
Definition page_at_natural_size (w h : Z) : Dom spec_float :=
  page (Binary64.ofZ w) (Binary64.ofZ h) (Binary64.ofZ w) (Binary64.ofZ h).

(** One annotation at the default spot, with font size [z]. *)
Definition one_annotation_of_size (z : Z) : State spec_float :=
  updateText "1000" (updates_fontSize (Binary64.ofZ z)) (addText 1000 None initial).

(** The spot and the font size of every call the export makes on the
    canvas, in order ([None] for the call that draws the image). *)
Definition exported_geometry (dom : Dom spec_float) (s : State spec_float)
  : list (option spec_float * option spec_float * option spec_float) :=
  map (fun op => (text_x op, text_y op, text_font op))
    (List.concat (map (@canvas_ops _) (downloads (handleDownload dom 5000 s)))).

(** * Properties *)

(** ** The store: [updateText], [addText], [removeText], selection *)

Section Store.

Context {num : Type} {NUM : Number num}.
Implicit Types (s : State num) (t : MemeText num) (updates : Partial_MemeText num).

Lemma texts_updateText id0 updates s :
  texts (updateText id0 updates s)
  = map (fun t => if String.eqb (id t) id0 then spread t updates else t) (texts s).
Proof. reflexivity. Qed.

Lemma map_patch_absent id0 updates (l : list (MemeText num)) :
  (forall t, In t l -> id t <> id0) ->
  map (fun t => if String.eqb (id t) id0 then spread t updates else t) l = l.
Proof.
  induction l as [|a l IH]; intros Hl; simpl; [reflexivity|].
  destruct (String.eqb_spec (id a) id0) as [E|_].
  - exfalso. apply (Hl a); [left; reflexivity | exact E].
  - f_equal. apply IH. intros t Ht. apply Hl. right. exact Ht.
Qed.

Lemma spread_patched_only t updates : patched_only t (spread t updates) updates.
Proof. unfold patched_only. simpl. repeat split. Qed.

(** C10.  [updateText] keeps the number and the order of the annotations:
    position by position, an annotation whose id differs from the given
    one is left as it is, and one whose id matches is replaced by a copy
    in which exactly the patched fields have changed.  If no annotation
    has the given id the collection is unchanged.  Nothing else of the
    state is touched. *)
Theorem C10_updateText_frame :
  forall (id0 : string) updates s,
    let s' := updateText id0 updates s in
    List.length (texts s') = List.length (texts s)
    /\ (forall i t, nth_error (texts s) i = Some t -> id t <> id0 ->
          nth_error (texts s') i = Some t)
    /\ (forall i t, nth_error (texts s) i = Some t -> id t = id0 ->
          exists t', nth_error (texts s') i = Some t' /\ patched_only t t' updates)
    /\ (forall i, nth_error (texts s) i = None -> nth_error (texts s') i = None)
    /\ ((forall t, In t (texts s) -> id t <> id0) -> texts s' = texts s)
    /\ selectedTextId s' = selectedTextId s
    /\ image s' = image s.
Proof.
  intros id0 updates s s'. subst s'. rewrite texts_updateText.
  split; [apply length_map|].
  split.
  { intros i t Hi Hne. rewrite nth_error_map, Hi. simpl.
    destruct (String.eqb_spec (id t) id0); [contradiction | reflexivity]. }
  split.
  { intros i t Hi He. exists (spread t updates).
    rewrite nth_error_map, Hi. simpl.
    rewrite He, String.eqb_refl. split; [reflexivity | apply spread_patched_only]. }
  split.
  { intros i Hi. rewrite nth_error_map, Hi. reflexivity. }
  split; [apply map_patch_absent|].
  split; reflexivity.
Qed.

Lemma panel_rendered_of_caption s idx caption :
  mode s = CAPTION -> nth_error (captions s) idx = Some caption ->
  panel_rendered s = true.
Proof.
  intros Hm Hn. unfold panel_rendered. rewrite Hm.
  destruct (captions s) as [|c l]; [destruct idx; discriminate | reflexivity].
Qed.

(** C9.  Clicking the [idx]-th suggestion of the panel appends exactly one
    annotation to the collection; its content is the clicked suggestion,
    and its id is the new selection. *)
Theorem C9_caption_click_appends_selected :
  forall (idx : nat) (now : Z) (caption : string) s,
    mode s = CAPTION ->
    nth_error (captions s) idx = Some caption ->
    let s' := clickCaption idx now s in
    exists t,
      texts s' = texts s ++ [t]
      /\ List.length (texts s') = S (List.length (texts s))
      /\ content t = caption
      /\ selectedTextId s' = Some (id t).
Proof.
  intros idx now caption s Hm Hn s'. subst s'. unfold clickCaption.
  rewrite (panel_rendered_of_caption s idx Hm Hn), Hn.
  eexists. split; [reflexivity|]. simpl.
  split; [|split; reflexivity].
  rewrite length_app. simpl. lia.
Qed.

Lemma selectedTextId_removeText id0 s :
  selectedTextId (removeText id0 s)
  = if strict_eq (selectedTextId s) id0 then None else selectedTextId s.
Proof. unfold removeText. destruct (strict_eq (selectedTextId s) id0); reflexivity. Qed.

Lemma texts_removeText id0 s :
  texts (removeText id0 s)
  = filter (fun t => negb (String.eqb (id t) id0)) (texts s).
Proof. unfold removeText. destruct (strict_eq (selectedTextId s) id0); reflexivity. Qed.

Lemma strict_eq_true sel id0 : strict_eq sel id0 = true <-> sel = Some id0.
Proof.
  destruct sel as [i|]; simpl; [|split; discriminate].
  destruct (String.eqb_spec i id0); split; congruence.
Qed.

(** C5 (amended).  [select(id)] is the bare state setter: it makes the
    given id the selection whether or not an annotation carries it, and
    leaves the collection alone.  [remove(id)] deletes the annotations
    with that id and resets the selection to none exactly when that id
    was selected; a [select(id)] issued after it makes the id the
    selection again.  The selection the canvas itself issues, on pointer
    down over the [i]-th layer, names an annotation of the collection. *)
Theorem C5_select_stores_the_id :
  forall (id0 : string) (i : nat) (e : Point num) s,
    selectedTextId (setSelectedTextId (Some id0) s) = Some id0
    /\ texts (setSelectedTextId (Some id0) s) = texts s
    /\ (forall t, In t (texts (removeText id0 s)) -> id t <> id0)
    /\ selectedTextId (removeText id0 s)
       = (if strict_eq (selectedTextId s) id0 then None else selectedTextId s)
    /\ selectedTextId (removeText id0 s) <> Some id0
    /\ selectedTextId (setSelectedTextId (Some id0) (removeText id0 s)) = Some id0
    /\ match nth_error (texts s) i with
       | Some t => selectedTextId (mouseDownText i e s) = Some (id t)
                   /\ In t (texts (mouseDownText i e s))
       | None => mouseDownText i e s = s
       end.
Proof.
  intros id0 i e s.
  split; [reflexivity|]. split; [reflexivity|].
  split.
  { intros t Ht. rewrite texts_removeText in Ht. apply filter_In in Ht.
    destruct Ht as [_ Ht]. destruct (String.eqb_spec (id t) id0); [discriminate | assumption]. }
  split; [apply selectedTextId_removeText|].
  split.
  { rewrite selectedTextId_removeText.
    destruct (strict_eq (selectedTextId s) id0) eqn:E; [discriminate|].
    intros H. apply strict_eq_true in H. congruence. }
  split; [reflexivity|].
  unfold mouseDownText. destruct (nth_error (texts s) i) as [t|] eqn:Hn; [|reflexivity].
  split; [reflexivity|]. simpl. eapply nth_error_In. exact Hn.
Qed.

(** The handlers that replace the image, in any state: only the upload
    touches the collection, and none of them touches the selection. *)
Lemma image_replaced_frame (t : Template) (now : Z) (url : string) s :
  (texts (clickTemplate t s) = texts s
   /\ selectedTextId (clickTemplate t s) = selectedTextId s)
  /\ (texts (clickRandom now s) = texts s
      /\ selectedTextId (clickRandom now s) = selectedTextId s)
  /\ (texts (handleAiEdit_settled (Some (Some url)) s) = texts s
      /\ selectedTextId (handleAiEdit_settled (Some (Some url)) s) = selectedTextId s)
  /\ (texts (handleFileUpload (Some (Some url)) s) = []
      /\ selectedTextId (handleFileUpload (Some (Some url)) s) = selectedTextId s).
Proof.
  repeat split; unfold handleAiEdit_settled; destruct (truthy url); reflexivity.
Qed.

End Store.

(** ** Runs of the program on binary64 numbers *)

Section Runs.

Import Binary64.
Local Open Scope string_scope.
Local Open Scope Z_scope.

(** Selecting an id that no annotation carries keeps that id as the
    selection: here after the only annotation was removed. *)
Lemma C5_select_after_remove_counterexample :
  let s := removeText "1000" (addText 1000 None (initial (num := spec_float))) in
  texts s = []
  /\ selectedTextId s = None
  /\ selectedTextId (setSelectedTextId (Some "1000") s) = Some "1000"
  /\ selectedTextId (setSelectedTextId (Some "1000") s) <> None.
Proof. simpl. repeat split. discriminate. Qed.

(** C2.  With two annotations in place and the second one selected,
    picking a template, asking for a random image or receiving an edited
    image replaces the image and keeps both annotations and the
    selection; a file upload empties the collection but keeps the id of
    a deleted annotation as the selection. *)
Theorem C2_image_replaced_annotations_kept :
  let s := two_annotations in
  let kept (s' : State spec_float) :=
    image s' <> image s /\ texts s' = texts s
    /\ selectedTextId s' = selectedTextId s in
  (List.length (texts s) = 2%nat /\ selectedTextId s = Some "2000")
  /\ kept (step s (TemplateClicked 0))
  /\ kept (step s (RandomClicked 3000))
  /\ kept (step s (AiEditSettled (Some (Some "data:image/png;base64,AAAA"))))
  /\ (let s' := step s (FileChosen (Some (Some "data:image/png;base64,AAAA"))) in
      image s' <> image s /\ texts s' = []
      /\ selectedTextId s' = Some "2000").
Proof.
  cbv zeta. split; [split; reflexivity|].
  repeat split; try reflexivity; vm_compute; discriminate.
Qed.

(** C8.  Two additions that read the same value from the clock give two
    annotations with one id; an update or a removal by that id then
    reaches both. *)
Theorem C8_same_clock_reading_same_id :
  let s : State spec_float := run [AddTextClicked 1000; AddTextClicked 1000] initial in
  map id (texts s) = ["1000"; "1000"]
  /\ ~ NoDup (map id (texts s))
  /\ map content (texts (updateText "1000" (updates_content "TOP") s)) = ["TOP"; "TOP"]
  /\ texts (removeText "1000" s) = [].
Proof.
  cbv zeta. split; [reflexivity|]. split; [|split; reflexivity].
  intros H. inversion H as [|a l Hin _]. apply Hin. left. reflexivity.
Qed.

End Runs.

(** *** A click on the second of three suggestions *)

Lemma C9_caption_click_appends_selected_witness :
  mode three_captions = CAPTION
  /\ nth_error (captions three_captions) 1 = Some "MONDAYS"%string
  /\ exists t : MemeText spec_float,
       texts (clickCaption 1 1000 three_captions) = texts three_captions ++ [t]
       /\ List.length (texts (clickCaption 1 1000 three_captions)) = 1%nat
       /\ content t = "MONDAYS"%string
       /\ selectedTextId (clickCaption 1 1000 three_captions) = Some (id t).
Proof.
  split; [reflexivity|]. split; [reflexivity|].
  exact (@C9_caption_click_appends_selected spec_float _ 1%nat 1000%Z
           "MONDAYS"%string three_captions eq_refl eq_refl).
Defined.

(** ** The exporter *)

Section Exporter.

Context {num : Type} {NUM : Number num}.
Implicit Types (s : State num) (dom : Dom num).
Local Open Scope string_scope.
Local Open Scope list_scope.

(** The file [handleDownload] produces once it has found the container,
    a 2D context and the image element. *)
Lemma handleDownload_found dom container imgEl (now : Z) s :
  canvasRef_current dom = Some container ->
  getContext_2d dom = true ->
  querySelector_img container = Some imgEl ->
  handleDownload dom now s
  = link_click
      {| download_name := ("meme-" ++ toString now ++ ".png")%string;
         canvas_width := naturalWidth imgEl;
         canvas_height := naturalHeight imgEl;
         canvas_ops :=
           drawImage (lit 0) (lit 0)
           :: flat_map (fun text =>
                let cw := width (container_rect container) in
                let ch := height (container_rect container) in
                let f := ((fontSize text / cw) * naturalWidth imgEl)%num in
                [ strokeText (content text)
                    ((x text / cw) * naturalWidth imgEl)%num
                    ((y text / ch) * naturalHeight imgEl)%num
                    f "black" (f * (lit 1 / lit 10))%num;
                  fillText (content text)
                    ((x text / cw) * naturalWidth imgEl)%num
                    ((y text / ch) * naturalHeight imgEl)%num
                    f (color text) ]) (texts s) |} s.
Proof.
  intros Hc Hg Hi. unfold handleDownload. rewrite Hc, Hg, Hi. reflexivity.
Qed.

Lemma handleDownload_alerts dom (now : Z) s :
  alerts (handleDownload dom now s) = alerts s.
Proof.
  unfold handleDownload.
  destruct (canvasRef_current dom) as [c|]; [|reflexivity].
  destruct (getContext_2d dom); [|reflexivity].
  destruct (querySelector_img c); reflexivity.
Qed.

(** C6.  [handleDownload] tests that the container, the 2D context and
    the image element are there, and nothing about the image itself:
    once they are found it shows no notice and hands out a file whose
    canvas has the natural size the element reports.  For an image that
    has not loaded that size is [0x0]. *)
Theorem C6_export_does_not_test_the_image :
  forall dom container imgEl (now : Z) s,
    canvasRef_current dom = Some container ->
    getContext_2d dom = true ->
    querySelector_img container = Some imgEl ->
    alerts (handleDownload dom now s) = alerts s
    /\ exists d,
         downloads (handleDownload dom now s) = downloads s ++ [d]
         /\ canvas_width d = naturalWidth imgEl
         /\ canvas_height d = naturalHeight imgEl.
Proof.
  intros dom c imgEl now s Hc Hg Hi. split; [apply handleDownload_alerts|].
  rewrite handleDownload_found with (container := c) (imgEl := imgEl) by assumption.
  eexists. split; [reflexivity|]. split; reflexivity.
Qed.

End Exporter.

(** *** The export on binary64 numbers *)

Section ExportScaling.

Import Binary64.
Local Open Scope string_scope.
Local Open Scope list_scope.




End ExportScaling.

(** *** A container of zero size *)

Section ExportZeroSize.

Import Binary64.
Local Open Scope string_scope.
Local Open Scope list_scope.

(** Dividing by a zero and scaling the quotient never gives a finite
    number: the quotient is an infinity or NaN, and so is its product. *)
Lemma div_zero_mul_not_finite (a n : spec_float) (sgn : bool) :
  isFinite (mul (div a (S754_zero sgn)) n) = false.
Proof. destruct a, n; reflexivity. Qed.

(** C7.  [handleDownload] has no test on the size of the container: it
    divides by it.  With a container of zero width every text call it
    makes on the context is given an [x] coordinate and a font size that
    are NaN or an infinity; with a container of zero height the same
    holds of every [y] coordinate.  The file is handed out as in every
    other case. *)
Theorem C7_zero_container_not_skipped :
  forall (dom : Dom spec_float) container imgEl (now : Z) (s : State spec_float),
    canvasRef_current dom = Some container ->
    getContext_2d dom = true ->
    querySelector_img container = Some imgEl ->
    exists d,
      downloads (handleDownload dom now s) = downloads s ++ [d]
      /\ List.length (canvas_ops d) = S (2 * List.length (texts s))
      /\ (forall sgn, width (container_rect container) = S754_zero sgn ->
            forall op v, In op (canvas_ops d) ->
              text_x op = Some v \/ text_font op = Some v -> isFinite v = false)
      /\ (forall sgn, height (container_rect container) = S754_zero sgn ->
            forall op v, In op (canvas_ops d) ->
              text_y op = Some v -> isFinite v = false).
Proof.
  intros dom container imgEl now s Hc Hg Hi.
  rewrite handleDownload_found with (container := container) (imgEl := imgEl)
    by assumption.
  eexists. split; [reflexivity|]. cbn [canvas_ops].
  split.
  { cbn [List.length]. f_equal. induction (texts s) as [|t l IH]; [reflexivity|].
    cbn [flat_map List.length app]. rewrite IH. lia. }
  split.
  - intros sgn Hw op v [Hop|Hop] Hv; [subst op; destruct Hv; discriminate|].
    apply in_flat_map in Hop. destruct Hop as [t [_ Ht]]. rewrite Hw in Ht.
    cbv zeta in Ht. cbn [In] in Ht.
    destruct Ht as [Ht|[Ht|[]]]; subst op; cbn in Hv;
      destruct Hv as [Hv|Hv]; injection Hv as <-;
      apply div_zero_mul_not_finite.
  - intros sgn Hh op v [Hop|Hop] Hv; [subst op; discriminate|].
    apply in_flat_map in Hop. destruct Hop as [t [_ Ht]]. rewrite Hh in Ht.
    cbv zeta in Ht. cbn [In] in Ht.
    destruct Ht as [Ht|[Ht|[]]]; subst op; cbn in Hv;
      injection Hv as <-; apply div_zero_mul_not_finite.
Qed.

Lemma C7_zero_container_not_skipped_witness :
  exists d,
    downloads (handleDownload page_not_loaded 5000 one_dragged_annotation) = [d]
    /\ List.length (canvas_ops d) = 3%nat
    /\ forall op v, In op (canvas_ops d) ->
         text_x op = Some v \/ text_font op = Some v -> isFinite v = false.
Proof.
  destruct (@C7_zero_container_not_skipped page_not_loaded _ _ 5000%Z
              one_dragged_annotation eq_refl eq_refl eq_refl)
    as [d [Hd [Hlen [Hw _]]]].
  exists d. split; [exact Hd|]. split; [exact Hlen|].
  exact (Hw false eq_refl).
Defined.

(** With nothing laid out and nothing loaded, the numbers computed for
    the only annotation are all NaN. *)
Lemma not_loaded_page_computes_NaN :
  let s' := handleDownload page_not_loaded 5000 one_dragged_annotation in
  map (@canvas_ops _) (downloads s')
  = [[ drawImage (ofZ 0) (ofZ 0);
       strokeText "DOUBLE TAP TO EDIT" S754_nan S754_nan S754_nan "black" S754_nan;
       fillText "DOUBLE TAP TO EDIT" S754_nan S754_nan S754_nan "#FFFFFF" ]].
Proof. vm_compute. reflexivity. Qed.

(** The image has not loaded (natural size [0x0]): the export shows no
    notice and hands out a file with a canvas of [0x0]. *)
Lemma C6_export_does_not_test_the_image_witness :
  let s' := handleDownload page_not_loaded 5000 (initial (num := spec_float)) in
  alerts s' = []
  /\ exists d,
       downloads s' = [d]
       /\ canvas_width d = ofZ 0 /\ canvas_height d = ofZ 0.
Proof.
  exact (@C6_export_does_not_test_the_image spec_float _ page_not_loaded _ _ 5000%Z
           initial eq_refl eq_refl eq_refl).
Defined.

End ExportZeroSize.

(** ** The drag controller *)

Section Drag.

Context {num : Type} {NUM : Number num}.
Implicit Types (s : State num) (t text : MemeText num) (e start : Point num).

Lemma find_text_patched (id0 : string) (u : Partial_MemeText num) (l : list (MemeText num)) :
  id_opt u = None ->
  find_text id0 (map (fun t => if String.eqb (id t) id0 then spread t u else t) l)
  = option_map (fun t => spread t u) (find_text id0 l).
Proof.
  intros Hu. unfold find_text. induction l as [|a l IH]; [reflexivity|].
  cbn [map find]. destruct (String.eqb (id a) id0) eqn:E.
  - cbn [spread id]. rewrite Hu, E. reflexivity.
  - rewrite E. exact IH.
Qed.

Lemma handleMouseMove_dragging i s start text e :
  truthy (id text) = true ->
  dragging i s start text ->
  dragging i (handleMouseMove e s s)
    {| clientX := clientX e; clientY := clientY e |}
    (spread text (updates_xy (x text + (clientX e - clientX start))%num
                             (y text + (clientY e - clientY start))%num))
  /\ List.length (texts (handleMouseMove e s s)) = List.length (texts s).
Proof.
  intros Ht (Hd & Hs & Hr & Hn & Hf). unfold handleMouseMove.
  rewrite Hd, Hs, Hr, Ht. fold (find_text (id text) (texts s)). rewrite Hf.
  unfold dragging. cbn [isDragging selectedTextId dragStartRef texts
    set_dragStartRef updateText setTexts spread id updates_xy id_opt].
  split; [|apply length_map].
  split; [exact Hd|]. split; [exact Hs|]. split; [reflexivity|].
  split.
  - rewrite nth_error_map, Hn. cbn [option_map]. rewrite String.eqb_refl. reflexivity.
  - rewrite find_text_patched by reflexivity. rewrite Hf. reflexivity.
Qed.

Lemma deltas_same_point (p : Point num) (moves : list (Point num)) :
  deltas {| clientX := clientX p; clientY := clientY p |} moves = deltas p moves.
Proof. destruct p; reflexivity. Qed.

Lemma run_moves_dragging moves : forall i s start text,
  truthy (id text) = true ->
  dragging i s start text ->
  exists text',
    nth_error (texts (run (map (@MouseMoved num) moves) s)) i = Some text'
    /\ (x text', y text') = apply_deltas (x text, y text) (deltas start moves)
    /\ id text' = id text /\ content text' = content text
    /\ fontSize text' = fontSize text /\ color text' = color text
    /\ List.length (texts (run (map (@MouseMoved num) moves) s)) = List.length (texts s).
Proof.
  induction moves as [|p moves IH]; intros i s start text Ht Hdrag.
  - exists text. destruct Hdrag as (_ & _ & _ & Hn & _). cbn. auto 10.
  - destruct (handleMouseMove_dragging p Ht Hdrag) as [Hdrag' Hlen].
    eapply IH in Hdrag'; [|exact Ht].
    destruct Hdrag' as (text' & Hn & Hxy & Hid & Hc & Hfs & Hcol & Hl).
    rewrite deltas_same_point in Hxy.
    exists text'. unfold run in *. cbn [map fold_left step].
    rewrite Hl, Hlen. repeat split; try assumption.
Qed.

Lemma mouseDownText_dragging i s e0 text :
  nth_error (texts s) i = Some text ->
  find_text (id text) (texts s) = Some text ->
  dragging i (mouseDownText i e0 s) {| clientX := clientX e0; clientY := clientY e0 |} text
  /\ texts (mouseDownText i e0 s) = texts s.
Proof.
  intros Hn Hf. unfold mouseDownText. rewrite Hn. unfold dragging. cbn. auto 10.
Qed.

End Drag.

(** *** The drag, with and without a render between the moves *)

Section DragRuns.

Import Binary64.
Local Open Scope string_scope.
Local Open Scope list_scope.

(** C4.  The pointer goes down at [(250,120)] on an annotation at
    [(400,300)] and moves to [(260,120)] and then to [(260,130)]: deltas
    [(10,0)] and [(0,10)].  When the page renders after each move the
    annotation ends at [(410,310)].  When both moves are handled before
    the page renders again, the second handler still adds its delta to
    the position of the last render, and the annotation ends at
    [(400,310)]: the first delta is lost, while [dragStartRef] has moved
    on to [(260,130)].  A third move by [(-5,-5)] before the render
    leaves it at [(395,295)], not at [(405,305)]. *)
Theorem C4_moves_before_render_lose_deltas :
  let position (s : State spec_float) := map (fun t => (x t, y t)) (texts s) in
  position pointer_down = [(ofZ 400, ofZ 300)]
  /\ position (run [MouseMoved (at_px 260 120); MouseMoved (at_px 260 130)] pointer_down)
     = [(ofZ 410, ofZ 310)]
  /\ position (moves_before_render [at_px 260 120; at_px 260 130] pointer_down)
     = [(ofZ 400, ofZ 310)]
  /\ dragStartRef (moves_before_render [at_px 260 120; at_px 260 130] pointer_down)
     = Some (at_px 260 130)
  /\ position (moves_before_render [at_px 260 120; at_px 260 130; at_px 255 125]
                 pointer_down)
     = [(ofZ 395, ofZ 295)]
  /\ position three_move_drag = [(ofZ 405, ofZ 305)]
  /\ position (handleMouseUp pointer_down) = [(ofZ 400, ofZ 300)].
Proof.
  cbv zeta. repeat split; vm_compute; reflexivity.
Qed.

End DragRuns.

(** ** Reachable states *)

Section Transitions.

Context {num : Type} {NUM : Number num}.
Implicit Types (s : State num) (ev : Event num).

Lemma step_texts_change s ev : texts_change ev (texts s) (texts (step s ev)).
Proof.
  destruct ev; cbn [step].
  - unfold handleFileUpload. destruct file as [[r|]|]; [apply change_clear | | ]; apply change_none.
  - apply change_none.
  - destruct (nth_error TEMPLATES i); apply change_none.
  - unfold handleMagicCaption. destruct (negb (truthy (image s))); apply change_none.
  - destruct outcome; apply change_none.
  - apply change_none.
  - unfold handleAiEdit.
    destruct (negb (truthy (trim (editPrompt s))) || negb (truthy (image s)));
      apply change_none.
  - unfold handleAiEdit_settled. destruct outcome as [[url|]|]; cbn;
      try destruct (truthy url); apply change_none.
  - apply (change_add (AddTextClicked now) (texts s) now None). left. reflexivity.
  - unfold changeContent. destruct (selectedTextId s) as [sel|]; [|apply change_none].
    destruct (truthy sel); [|apply change_none].
    apply change_patch. constructor.
  - unfold changeColor. destruct (selectedTextId s) as [sel|]; [|apply change_none].
    destruct (truthy sel); [|apply change_none].
    apply change_patch. constructor.
  - unfold handleDownload. destruct (canvasRef_current dom) as [c|]; [|apply change_none].
    destruct (getContext_2d dom); [|apply change_none].
    destruct (querySelector_img c); apply change_none.
  - unfold clickCaption. destruct (panel_rendered s); [|apply change_none].
    destruct (nth_error (captions s) idx) as [caption|]; [|apply change_none].
    apply (change_add (CaptionClicked idx now) (texts s) now (Some caption)).
    left. reflexivity.
  - unfold clickClosePanel. destruct (panel_rendered s); apply change_none.
  - unfold mouseDownText. destruct (nth_error (texts s) i); apply change_none.
  - unfold handleMouseMove. destruct (isDragging s); [|apply change_none].
    destruct (selectedTextId s) as [sel|]; [|apply change_none].
    destruct (dragStartRef s) as [start|]; [|apply change_none].
    destruct (truthy sel); [|apply change_none].
    destruct (find _ (texts s)); [|apply change_none].
    apply change_patch. constructor.
  - apply change_none.
  - apply change_none.
  - unfold clickTrash. destruct (nth_error (texts s) i) as [text|]; [|apply change_none].
    destruct (strict_eq (selectedTextId s) (id text)); [|apply change_none].
    rewrite texts_removeText. apply change_remove.
  - unfold mouseDownIncrease.
    destruct (nth_error (texts s) i) as [text|] eqn:Hn; [|apply change_none].
    destruct (strict_eq (selectedTextId s) (id text)); [|apply change_none].
    apply change_patch. apply patch_increase. eapply nth_error_In. exact Hn.
  - unfold mouseDownDecrease.
    destruct (nth_error (texts s) i) as [text|] eqn:Hn; [|apply change_none].
    destruct (strict_eq (selectedTextId s) (id text)); [|apply change_none].
    apply change_patch. apply patch_decrease. eapply nth_error_In. exact Hn.
Qed.

(** A property of the collection that holds of the empty collection and
    survives every change an event can make holds in every state the
    page can reach. *)
Lemma reachable_texts (P : list (MemeText num) -> Prop) :
  P [] ->
  (forall ev l l', texts_change ev l l' -> P l -> P l') ->
  forall evs : list (Event num), P (texts (run evs initial)).
Proof.
  intros H0 Hstep evs. unfold run.
  assert (G : forall s, P (texts s) -> P (texts (fold_left step evs s))).
  { induction evs as [|ev evs IH]; intros s Hs; [exact Hs|].
    cbn [fold_left]. apply IH. eapply Hstep; [apply step_texts_change | exact Hs]. }
  apply G. exact H0.
Qed.

End Transitions.

(** ** Font sizes *)

Section FontSize.

Import Binary64.
Local Open Scope Z_scope.

Lemma same_eq (a b : spec_float) : same a b = true -> a = b.
Proof.
  destruct a as [sa|sa| |sa ma ea], b as [sb|sb| |sb mb eb]; cbn; try discriminate;
    try reflexivity.
  - intros H. apply Bool.eqb_prop in H. congruence.
  - intros H. apply Bool.eqb_prop in H. congruence.
  - intros H. apply andb_prop in H. destruct H as [H He].
    apply andb_prop in H. destruct H as [Hs Hm].
    apply Bool.eqb_prop in Hs. apply Pos.eqb_eq in Hm. apply Z.eqb_eq in He.
    congruence.
Qed.

Lemma font_steps_checked : forallb step_checked font_steps = true.
Proof. vm_compute. reflexivity. Qed.

Lemma font_steps_range (z : Z) : In z font_steps -> 12 <= z <= 120.
Proof.
  unfold font_steps. rewrite in_map_iff. intros [k [<- Hk]].
  apply in_seq in Hk. lia.
Qed.

Lemma font_step_facts (z : Z) :
  In z font_steps ->
  within_bounds (ofZ z) = true
  /\ Math_min (lit 120) (ofZ z + lit 4)%num = ofZ (Z.min 120 (z + 4))
  /\ Math_max (lit 12) (ofZ z - lit 4)%num = ofZ (Z.max 12 (z - 4))
  /\ In (Z.min 120 (z + 4)) font_steps
  /\ In (Z.max 12 (z - 4)) font_steps.
Proof.
  intros Hz. pose proof font_steps_checked as H.
  rewrite forallb_forall in H. specialize (H z Hz). unfold step_checked in H.
  apply andb_prop in H as [H H5]. apply andb_prop in H as [H H4].
  apply andb_prop in H as [H H3]. apply andb_prop in H as [H1 H2].
  split; [assumption|]. split; [apply same_eq; assumption|].
  split; [apply same_eq; assumption|].
  split.
  - apply existsb_exists in H4. destruct H4 as [w [Hw E]].
    apply Z.eqb_eq in E. congruence.
  - apply existsb_exists in H5. destruct H5 as [w [Hw E]].
    apply Z.eqb_eq in E. congruence.
Qed.

Lemma default_on_font_step : on_font_step (lit 40).
Proof. exists 40. split; [|reflexivity]. cbv. tauto. Qed.

Lemma ui_patch_on_font_step (l : list (MemeText spec_float)) u t :
  Forall (fun t => on_font_step (fontSize t)) l ->
  ui_patch l u -> on_font_step (fontSize t) ->
  on_font_step (fontSize (spread t u)).
Proof.
  intros Hl Hu Ht. destruct Hu as [v|v|vx vy|text Hin|text Hin]; cbn; try exact Ht.
  - rewrite Forall_forall in Hl. destruct (Hl text Hin) as [z [Hz ->]].
    destruct (font_step_facts Hz) as (_ & E & _ & Hnext & _).
    exists (Z.min 120 (z + 4)). split; [exact Hnext | exact E].
  - rewrite Forall_forall in Hl. destruct (Hl text Hin) as [z [Hz ->]].
    destruct (font_step_facts Hz) as (_ & _ & E & _ & Hprev).
    exists (Z.max 12 (z - 4)). split; [exact Hprev | exact E].
Qed.

Lemma texts_change_on_font_step (ev : Event spec_float) l l' :
  texts_change ev l l' ->
  Forall (fun t => on_font_step (fontSize t)) l ->
  Forall (fun t => on_font_step (fontSize t)) l'.
Proof.
  intros Hc Hl. destruct Hc as [| |now c _|id0 u Hu|id0].
  - exact Hl.
  - constructor.
  - apply Forall_app. split; [exact Hl|]. constructor; [|constructor].
    apply default_on_font_step.
  - apply Forall_map. rewrite Forall_forall in *. intros t Ht.
    destruct (String.eqb (id t) id0); [|apply Hl; exact Ht].
    apply ui_patch_on_font_step with (l := l);
      [rewrite Forall_forall; exact Hl | exact Hu | apply Hl; exact Ht].
  - rewrite Forall_forall in *. intros t Ht. apply filter_In in Ht. apply Hl, Ht.
Qed.

Lemma reachable_on_font_step (evs : list (Event spec_float)) :
  Forall (fun t => on_font_step (fontSize t)) (texts (run evs initial)).
Proof.
  apply (reachable_texts (fun l => Forall (fun t => on_font_step (fontSize t)) l)).
  - constructor.
  - intros ev l l'. apply texts_change_on_font_step.
Qed.

(** The store does not clamp: [updateText] gives the annotation the font
    size of the patch, whatever it is.  The bounds are kept by the two
    callers that patch a font size. *)
Lemma spread_fontSize_as_given (t : MemeText spec_float) (v : spec_float) :
  fontSize (spread t (updates_fontSize v)) = v.
Proof. reflexivity. Qed.

(** C3.  In every state the page can reach, so after every update it can
    issue, the font size of every annotation lies within [[12,120]].
    The "A+" and "A-" controls of the selected annotation move its font
    size by a step of 4, held at 120 and at 12: from a size [z] they
    give [min 120 (z + 4)] and [max 12 (z - 4)]. *)
Theorem C3_fontSize_within_bounds :
  forall (evs : list (Event spec_float)),
    let s := run evs initial in
    Forall (fun t => within_bounds (fontSize t) = true) (texts s)
    /\ (forall i text,
          nth_error (texts s) i = Some text ->
          exists z,
            12 <= z <= 120 /\ fontSize text = ofZ z
            /\ (selectedTextId s = Some (id text) ->
                exists up down,
                  nth_error (texts (mouseDownIncrease i s)) i = Some up
                  /\ fontSize up = ofZ (Z.min 120 (z + 4))
                  /\ nth_error (texts (mouseDownDecrease i s)) i = Some down
                  /\ fontSize down = ofZ (Z.max 12 (z - 4)))).
Proof.
  intros evs s. pose proof (reachable_on_font_step evs) as Hinv. fold s in Hinv.
  rewrite Forall_forall in Hinv. split.
  - rewrite Forall_forall. intros t Ht. destruct (Hinv t Ht) as [z [Hz ->]].
    apply (font_step_facts Hz).
  - intros i text Hn. destruct (Hinv text (nth_error_In _ _ Hn)) as [z [Hz Hf]].
    exists z. split; [apply font_steps_range; exact Hz|]. split; [exact Hf|].
    intros Hsel. destruct (font_step_facts Hz) as (_ & Eup & Edown & _ & _).
    unfold mouseDownIncrease, mouseDownDecrease. rewrite Hn, Hsel.
    cbn [strict_eq]. rewrite String.eqb_refl. rewrite !texts_updateText.
    rewrite !nth_error_map, Hn. cbn [option_map]. rewrite String.eqb_refl.
    do 2 eexists. split; [reflexivity|]. split; [cbn; rewrite Hf; exact Eup|].
    split; [reflexivity|]. cbn. rewrite Hf. exact Edown.
Qed.

End FontSize.

(** ** Ids *)

Section Ids.

Context {num : Type} {NUM : Number num}.
Implicit Types (s : State num) (ev : Event num) (l : list (MemeText num)).

Lemma to_int_not_nil (z : Z) :
  Z.to_int z <> Decimal.Pos Decimal.Nil /\ Z.to_int z <> Decimal.Neg Decimal.Nil.
Proof.
  destruct z as [|p|p]; cbn; split; try discriminate; intros H; injection H as H;
    exact (DecimalPos.Unsigned.to_uint_nonnil p H).
Qed.

Lemma toString_inj (a b : Z) : toString a = toString b -> a = b.
Proof.
  unfold toString. intros H. apply (f_equal NilZero.int_of_string) in H.
  destruct (to_int_not_nil a), (to_int_not_nil b).
  rewrite !NilZero.isi in H by assumption.
  injection H as H. apply DecimalZ.to_int_inj. exact H.
Qed.

Lemma ui_patch_keeps_id l u : ui_patch l u -> id_opt u = None.
Proof. intros []; reflexivity. Qed.

Lemma ids_issued_more used used' l :
  (forall n, In n used -> In n used') -> ids_issued used l -> ids_issued used' l.
Proof.
  intros Hsub [Hnd Hall]. split; [exact Hnd|].
  intros t Ht. destruct (Hall t Ht) as [n [Hn E]]. exists n. auto.
Qed.

Lemma texts_change_ids_issued ev used l l' :
  texts_change ev l l' ->
  (forall n, In n (add_times [ev]) -> ~ In n used) ->
  ids_issued used l ->
  ids_issued (add_times [ev] ++ used) l'.
Proof.
  intros Hc Hfresh Hl. pose proof Hl as [Hnd Hall].
  destruct Hc as [| |now c Hnow|id0 u Hu|id0].
  - eapply ids_issued_more; [|exact Hl]. intros n Hn. apply in_or_app. auto.
  - split; [constructor | intros t []].
  - split.
    + rewrite map_app. apply NoDup_app; [exact Hnd | repeat constructor; intros [] |].
      intros i Hi [E|[]]. cbn in E. apply in_map_iff in Hi.
      destruct Hi as [t [Et Ht]]. destruct (Hall t Ht) as [n [Hn En]].
      assert (n = now) by (apply toString_inj; congruence). subst n.
      exact (Hfresh now Hnow Hn).
    + intros t Ht. apply in_app_or in Ht. destruct Ht as [Ht|[<-|[]]].
      * destruct (Hall t Ht) as [n [Hn En]]. exists n. split; [|exact En].
        apply in_or_app. auto.
      * exists now. split; [apply in_or_app; auto | reflexivity].
  - pose proof (@ui_patch_keeps_id l u Hu) as Hid.
    assert (E : map (@id num)
                  (map (fun t => if String.eqb (id t) id0 then spread t u else t) l)
                = map (@id num) l).
    { rewrite map_map. apply map_ext. intros t.
      destruct (String.eqb (id t) id0); [|reflexivity]. cbn. rewrite Hid. reflexivity. }
    split; [rewrite E; exact Hnd|].
    intros t Ht. apply in_map_iff in Ht. destruct Ht as [t0 [<- Ht0]].
    destruct (Hall t0 Ht0) as [n [Hn En]]. exists n. split; [apply in_or_app; auto|].
    destruct (String.eqb (id t0) id0); [|exact En]. cbn. rewrite Hid. exact En.
  - split.
    + rewrite <- (filter_map_swap (fun i => negb (String.eqb i id0)) (@id num) l).
      apply NoDup_filter. exact Hnd.
    + intros t Ht. apply filter_In in Ht. destruct Ht as [Ht _].
      destruct (Hall t Ht) as [n [Hn En]]. exists n. split; [apply in_or_app; auto | exact En].
Qed.

Lemma add_times_cons ev (evs : list (Event num)) :
  add_times (ev :: evs) = add_times [ev] ++ add_times evs.
Proof. unfold add_times. cbn [flat_map]. rewrite app_nil_r. reflexivity. Qed.

Lemma run_ids_issued (evs : list (Event num)) : forall s used,
  ids_issued used (texts s) ->
  NoDup (add_times evs) ->
  (forall n, In n (add_times evs) -> ~ In n used) ->
  ids_issued (rev (add_times evs) ++ used) (texts (run evs s)).
Proof.
  induction evs as [|ev evs IH]; intros s used Hs Hnd Hfresh; [exact Hs|].
  rewrite add_times_cons in *. unfold run in *. cbn [fold_left].
  eapply ids_issued_more;
    [|apply (IH (step s ev) (add_times [ev] ++ used))].
  - intros n Hn. rewrite rev_app_distr. apply in_app_or in Hn.
    destruct Hn as [Hn|Hn]; [apply in_or_app; left; apply in_or_app; auto|].
    apply in_app_or in Hn. destruct Hn as [Hn|Hn].
    + apply in_or_app. left. apply in_or_app. right. apply in_rev in Hn. exact Hn.
    + apply in_or_app. auto.
  - apply texts_change_ids_issued with (l := texts s);
      [apply step_texts_change | | exact Hs].
    intros n Hn. apply Hfresh. apply in_or_app. auto.
  - eapply NoDup_app_remove_l. exact Hnd.
  - intros n Hn Hn'. apply in_app_or in Hn'. destruct Hn' as [Hn'|Hn'].
    + revert n Hn' Hn. clear -Hnd. induction (add_times [ev]) as [|a l IHl];
        intros n Hn' Hn; [destruct Hn'|].
      cbn in Hnd. inversion Hnd as [|? ? Ha Hrest]; subst.
      destruct Hn' as [<-|Hn']; [apply Ha; apply in_or_app; auto | eauto].
    + exact (Hfresh n (in_or_app _ _ _ (or_intror Hn)) Hn').
Qed.

(** What the timestamp ids do guarantee: while the clock readings taken
    by the additions are pairwise distinct, so are the ids of the
    annotations. *)
Lemma ids_distinct_when_clock_distinct (evs : list (Event num)) :
  NoDup (add_times evs) -> NoDup (map (@id num) (texts (run evs initial))).
Proof.
  intros Hnd.
  destruct (@run_ids_issued evs initial []) as [H _]; [| exact Hnd | | exact H].
  - split; [constructor | intros t []].
  - intros n _ [].
Qed.

End Ids.

(** * Further properties of the code *)

(** ** [geminiService]: data URLs out, data URLs in *)

Section Service.

Local Open Scope string_scope.
Local Open Scope list_scope.

Lemma strip_prefix_Some (p : string) : forall s d,
  strip_prefix p s = Some d -> s = (p ++ d)%string.
Proof.
  induction p as [|a p IH]; intros s d H; cbn in H.
  - injection H as <-. reflexivity.
  - destruct s as [|b s]; [discriminate|].
    destruct (Ascii.eqb_spec a b) as [<-|]; [|discriminate].
    cbn. f_equal. apply IH. exact H.
Qed.

Lemma replace_leading_cases (ps : list string) (s : string) :
  (exists p, In p ps /\ s = (p ++ replace_leading ps s)%string)
  \/ ((forall p, In p ps -> strip_prefix p s = None) /\ replace_leading ps s = s).
Proof.
  induction ps as [|p ps IH]; cbn [replace_leading].
  - right. split; [intros p []| reflexivity].
  - destruct (strip_prefix p s) as [d|] eqn:E.
    + left. exists p. split; [left; reflexivity | apply strip_prefix_Some; exact E].
    + destruct IH as [[q [Hq Hs]]|[Hnone Hs]].
      * left. exists q. split; [right; exact Hq | exact Hs].
      * right. split; [|exact Hs]. intros q [<-|Hq]; [exact E | apply Hnone; exact Hq].
Qed.

(** X1.  [cleanBase64] removes one leading [data:image/...;base64,]
    header of a PNG, JPEG, JPG or WEBP data URL and returns the payload;
    a string that starts with none of the four headers is returned as it
    is.  In every case the result is the input with at most that one
    header taken off the front. *)
Theorem cleanBase64_strips_one_header :
  forall (p payload : string),
    In p data_url_prefixes ->
    cleanBase64 (p ++ payload)%string = payload
    /\ (forall s,
          (exists q, In q data_url_prefixes /\ s = (q ++ cleanBase64 s)%string)
          \/ ((forall q, In q data_url_prefixes -> strip_prefix q s = None)
              /\ cleanBase64 s = s)).
Proof.
  intros p payload Hp. split.
  - cbn in Hp. destruct Hp as [<-|[<-|[<-|[<-|[]]]]]; reflexivity.
  - intros s. apply replace_leading_cases.
Qed.

Lemma cleanBase64_strips_one_header_witness :
  In "data:image/jpeg;base64," data_url_prefixes
  /\ cleanBase64 "data:image/jpeg;base64,/9j/4AAQ" = "/9j/4AAQ".
Proof.
  split; [right; left; reflexivity|].
  exact (proj1 (@cleanBase64_strips_one_header "data:image/jpeg;base64," "/9j/4AAQ"
                  (or_intror (or_introl eq_refl)))).
Defined.

Lemma first_inline_image_spec (ps : list Part) :
  match first_inline_image ps with
  | Some url =>
      exists before part inline after,
        ps = before ++ part :: after
        /\ (forall q, In q before -> inlineData q = None)
        /\ inlineData part = Some inline
        /\ url = ("data:image/png;base64," ++ interpolate (data inline))%string
  | None => forall q, In q ps -> inlineData q = None
  end.
Proof.
  induction ps as [|part ps IH]; cbn [first_inline_image]; [intros q []|].
  destruct (inlineData part) as [inline|] eqn:E.
  - exists [], part, inline, ps. repeat split; [intros q []| exact E].
  - destruct (first_inline_image ps) as [url|].
    + destruct IH as (before & part' & inline & after & -> & Hb & Hp & Hu).
      exists (part :: before), part', inline, after. repeat split; try assumption.
      intros q [<-|Hq]; [exact E | apply Hb; exact Hq].
    + intros q [<-|Hq]; [exact E | apply IH; exact Hq].
Qed.

(** X2.  Whatever the response, [editImageWithAI] returns once the call
    has returned.  When it returns an image, it is the first part of the
    first candidate that carries inline data, written as a PNG data URL:
    the value is never the empty string, and [cleanBase64] gives back
    exactly the data received.  It returns [null] exactly when there is
    no such part: no candidates, an empty list of candidates, a first
    candidate without content or parts, or parts without inline data.
    Further candidates and the text of the response are not read. *)
Theorem editImageWithAI_returns_first_inline_image :
  forall (r : GenerateContentResponse),
    (forall url, editImageWithAI_returns (Some r) = Some (Some url) ->
       exists c more ct ps before part inline after,
         candidates r = Some (c :: more)
         /\ candidate_content c = Some ct /\ parts ct = Some ps
         /\ ps = before ++ part :: after
         /\ (forall q, In q before -> inlineData q = None)
         /\ inlineData part = Some inline
         /\ url = ("data:image/png;base64," ++ interpolate (data inline))%string
         /\ truthy url = true
         /\ cleanBase64 url = interpolate (data inline))
    /\ (editImageWithAI_returns (Some r) = Some None <->
        forall c more ct ps,
          candidates r = Some (c :: more) ->
          candidate_content c = Some ct -> parts ct = Some ps ->
          forall q, In q ps -> inlineData q = None)
    /\ (candidates r = None \/ candidates r = Some [] ->
        editImageWithAI_returns (Some r) = Some None)
    /\ (forall c more more' t',
          candidates r = Some (c :: more) ->
          editImageWithAI_returns
            (Some {| candidates := Some (c :: more'); response_text := t' |})
          = editImageWithAI_returns (Some r))
    /\ editImageWithAI_returns (Some r) <> None.
Proof.
  intros r. cbn [editImageWithAI_returns].
  split.
  { intros url H. injection H as H.
    destruct (candidates r) as [[|c more]|]; try discriminate.
    destruct (candidate_content c) as [ct|] eqn:Hct; [|discriminate].
    destruct (parts ct) as [ps|] eqn:Hparts; [|discriminate].
    pose proof (first_inline_image_spec ps) as S. rewrite H in S.
    destruct S as (before & part & inline & after & Hps & Hb & Hp & Hu).
    exists c, more, ct, ps, before, part, inline, after.
    split; [reflexivity|]. split; [exact Hct|].
    split; [exact Hparts|]. split; [exact Hps|].
    split; [exact Hb|]. split; [exact Hp|]. split; [exact Hu|].
    rewrite Hu. split; reflexivity. }
  split.
  { split.
    - intros H c more ct ps Hc Hct Hps. rewrite Hc, Hct, Hps in H. injection H as H.
      pose proof (first_inline_image_spec ps) as S. rewrite H in S. exact S.
    - intros H. destruct (candidates r) as [[|c more]|]; try reflexivity.
      destruct (candidate_content c) as [ct|] eqn:Hct; [|reflexivity].
      destruct (parts ct) as [ps|] eqn:Hparts; [|reflexivity].
      pose proof (first_inline_image_spec ps) as S.
      destruct (first_inline_image ps) as [url|]; [|reflexivity].
      destruct S as (before & part & inline & after & Hps & _ & Hp & _).
      assert (N : inlineData part = None).
      { apply (H c more ct ps eq_refl Hct Hparts). rewrite Hps.
        apply in_or_app. right. left. reflexivity. }
      rewrite N in Hp. discriminate Hp. }
  split.
  { intros [H|H]; rewrite H; reflexivity. }
  split.
  { intros c more more' t' H. rewrite H. reflexivity. }
  discriminate.
Qed.

End Service.

(** ** The two AI flows of [App] *)

Section AiFlows.

Context {num : Type} {NUM : Number num}.
Implicit Types (s : State num).
Local Open Scope string_scope.
Local Open Scope list_scope.

Lemma trimStart_white (l : list Char) :
  forallb (fun c => isWhiteSpace (code c)) (trimStart l)
  = forallb (fun c => isWhiteSpace (code c)) l.
Proof.
  induction l as [|c r IH]; [reflexivity|]. cbn [trimStart forallb].
  destruct (isWhiteSpace (code c)) eqn:E; [exact IH|]. cbn [forallb]. rewrite E. reflexivity.
Qed.

Lemma trimStart_nil (l : list Char) :
  trimStart l = [] <-> forallb (fun c => isWhiteSpace (code c)) l = true.
Proof.
  induction l as [|c r IH]; [split; reflexivity|]. cbn [trimStart forallb].
  destruct (isWhiteSpace (code c)); [exact IH|]. split; discriminate.
Qed.

Lemma white_rev (l : list Char) :
  forallb (fun c => isWhiteSpace (code c)) (rev l)
  = forallb (fun c => isWhiteSpace (code c)) l.
Proof.
  induction l as [|c r IH]; [reflexivity|]. cbn [rev forallb].
  rewrite forallb_app, IH. cbn [forallb]. rewrite andb_true_r. apply andb_comm.
Qed.

Lemma rev_nil (A : Type) (l : list A) : rev l = [] <-> l = [].
Proof.
  split; intros H; [|rewrite H; reflexivity].
  rewrite <- (rev_involutive l), H. reflexivity.
Qed.

Lemma trimEnd_nil (l : list Char) :
  trimEnd l = [] <-> forallb (fun c => isWhiteSpace (code c)) l = true.
Proof.
  unfold trimEnd. rewrite rev_nil, trimStart_nil, white_rev. reflexivity.
Qed.

Lemma bytes_of_empty (l : list Char) : bytes_of l = "" <-> l = [].
Proof. destruct l; cbn [bytes_of]; split; (reflexivity || discriminate). Qed.

Lemma trim_empty (s : string) : trim s = "" <-> blank s = true.
Proof.
  unfold trim, blank. rewrite bytes_of_empty, trimEnd_nil, trimStart_white. reflexivity.
Qed.

Lemma truthy_trim (s : string) : truthy (trim s) = negb (blank s).
Proof.
  unfold truthy. destruct (String.eqb_spec (trim s) "") as [E|E].
  - apply trim_empty in E. rewrite E. reflexivity.
  - destruct (blank s) eqn:B; [|reflexivity].
    exfalso. apply E. apply trim_empty. exact B.
Qed.

Lemma truthy_false (s : string) : truthy s = false <-> s = "".
Proof.
  unfold truthy. destruct (String.eqb_spec s ""); cbn; split; congruence.
Qed.

(** X3.  "Apply Edit" does nothing at all when the prompt is empty or
    made only of the white space and line terminators that
    [String.prototype.trim] removes (no-break space, U+2028, U+FEFF and
    the other Unicode spaces among them), or when there is no image; otherwise the
    click only raises the busy flag.  "Generate Captions" does nothing
    when there is no image; otherwise it raises the busy flag and
    empties the suggestions. *)
Theorem ai_clicks_guarded :
  forall s,
    (blank (editPrompt s) = true \/ image s = "" -> handleAiEdit s = s)
    /\ (blank (editPrompt s) = false -> image s <> "" ->
        handleAiEdit s = setIsProcessing true s)
    /\ (image s = "" -> handleMagicCaption s = s)
    /\ (image s <> "" ->
        captions (handleMagicCaption s) = []
        /\ isProcessing (handleMagicCaption s) = true
        /\ image (handleMagicCaption s) = image s
        /\ overlay_kept s (handleMagicCaption s)).
Proof.
  intros s. unfold handleAiEdit, handleMagicCaption. rewrite truthy_trim.
  split.
  { intros [H|H].
    - rewrite H. reflexivity.
    - apply truthy_false in H. rewrite H. rewrite orb_true_r. reflexivity. }
  split.
  { intros Hb Hi. rewrite Hb.
    destruct (truthy (image s)) eqn:E; [reflexivity|].
    apply truthy_false in E. contradiction. }
  split.
  { intros H. apply truthy_false in H. rewrite H. reflexivity. }
  intros Hi. destruct (truthy (image s)) eqn:E.
  - cbn. unfold overlay_kept. cbn. auto 10.
  - apply truthy_false in E. contradiction.
Qed.

(** X4.  When an edit settles with what [editImageWithAI] returns, the
    busy flag is lowered and the overlay is untouched in every case.  A
    returned image becomes the image and empties the prompt without any
    notice, and it is stored so that the next request sends exactly the
    image data received; [null] and a thrown error each show one notice
    and leave image and prompt as they were. *)
Theorem ai_edit_settles :
  forall (response : option GenerateContentResponse) s,
    let s' := handleAiEdit_settled (editImageWithAI_returns response) s in
    isProcessing s' = false
    /\ overlay_kept s s'
    /\ captions s' = captions s
    /\ match editImageWithAI_returns response with
       | Some (Some url) =>
           image s' = url /\ editPrompt s' = "" /\ alerts s' = alerts s
           /\ exists payload,
                url = ("data:image/png;base64," ++ payload)%string
                /\ forall fetched prompt,
                     fst (handleAiEdit_sends fetched (setEditPrompt prompt s'))
                     = payload
       | Some None =>
           image s' = image s /\ editPrompt s' = editPrompt s
           /\ alerts s' = alerts s ++ ["AI could not edit the image this time."]
       | None =>
           image s' = image s /\ editPrompt s' = editPrompt s
           /\ alerts s' = alerts s ++ ["Error editing image. Please try again."]
       end.
Proof.
  intros response s s'. subst s'.
  destruct response as [r|]; cbn [editImageWithAI_returns];
    [|unfold overlay_kept; cbn; auto 10].
  destruct (candidates r) as [[|c more]|];
    try (unfold overlay_kept; cbn; auto 10; fail).
  destruct (candidate_content c) as [ct|];
    [|unfold overlay_kept; cbn; auto 10].
  destruct (parts ct) as [ps|]; [|unfold overlay_kept; cbn; auto 10].
  pose proof (first_inline_image_spec ps) as S.
  destruct (first_inline_image ps) as [url|];
    [|unfold overlay_kept; cbn; auto 10].
  destruct S as (_ & _ & inline & _ & _ & _ & _ & ->).
  unfold overlay_kept. cbn. repeat split.
  exists (interpolate (data inline)). split; reflexivity.
Qed.

Section Captions.

Variable JSON_parse : string -> option JSON.

(** X5.  [generateMagicCaptions] returns the empty array for a response
    without text or whose text is white space only, and otherwise
    whatever [JSON.parse] gives for the trimmed text, throwing when the
    call or the parser throws.  When the request settles the busy flag
    is lowered and image and overlay are untouched.  A thrown error
    shows one notice and leaves the suggestions as they were; a returned
    array of strings becomes the suggestions without a notice, and the
    empty array closes the panel.  (A returned value that is not an
    array of strings is stored as it is by the code; the state of this
    development holds arrays of strings only, and such values are
    outside this statement.) *)
Theorem magic_captions_settle :
  forall (response : option GenerateContentResponse) s,
    let returned := generateMagicCaptions_returns JSON_parse response in
    (forall outcome,
       let s' := handleMagicCaption_settled outcome s in
       isProcessing s' = false /\ image s' = image s /\ overlay_kept s s')
    /\ (response = None -> returned = None)
    /\ (forall r, response = Some r ->
          match response_text r with
          | None => True
          | Some text => blank text = true
          end ->
          returned = Some (JArray []))
    /\ (forall r text, response = Some r -> response_text r = Some text ->
          blank text = false -> returned = JSON_parse (trim text))
    /\ (returned = None ->
        let s' := handleMagicCaption_settled None s in
        captions s' = captions s
        /\ alerts s' = alerts s ++ ["Failed to generate captions. Try again."])
    /\ (forall v suggestions,
          returned = Some v -> as_string_array v = Some suggestions ->
          let s' := handleMagicCaption_settled (Some suggestions) s in
          captions s' = suggestions /\ alerts s' = alerts s
          /\ (suggestions = [] -> panel_rendered s' = false)).
Proof.
  intros response s returned. subst returned.
  split.
  { intros outcome. destruct outcome; unfold overlay_kept; cbn; auto 10. }
  split; [intros ->; reflexivity|].
  split.
  { intros r -> Hr. cbn [generateMagicCaptions_returns].
    destruct (response_text r) as [text|]; [|reflexivity].
    rewrite truthy_trim, Hr. reflexivity. }
  split.
  { intros r text -> Ht Hb. cbn [generateMagicCaptions_returns].
    rewrite Ht, truthy_trim, Hb. reflexivity. }
  split; [intros _; cbn; auto|].
  intros v suggestions _ _. cbn. repeat split. intros ->. reflexivity.
Qed.

End Captions.

End AiFlows.

Lemma magic_captions_settle_witness :
  let parse := fun _ : string => Some (JArray [JString "TOP"; JString "BOTTOM"]) in
  let response :=
    Some {| candidates := None; response_text := Some "  [TOP, BOTTOM] "%string |} in
  generateMagicCaptions_returns parse response
  = Some (JArray [JString "TOP"; JString "BOTTOM"])
  /\ as_string_array (JArray [JString "TOP"; JString "BOTTOM"])
     = Some ["TOP"%string; "BOTTOM"%string]
  /\ captions (handleMagicCaption_settled (Some ["TOP"%string; "BOTTOM"%string])
                 (initial : State spec_float))
     = ["TOP"%string; "BOTTOM"%string].
Proof.
  intros parse response.
  split; [reflexivity|]. split; [reflexivity|].
  destruct (@magic_captions_settle spec_float parse response initial)
    as (_ & _ & _ & _ & _ & H).
  exact (proj1 (H (JArray [JString "TOP"; JString "BOTTOM"])
                  ["TOP"%string; "BOTTOM"%string] eq_refl eq_refl)).
Defined.

(** ** Invariants of the page *)

Section PageInvariants.

Context {num : Type} {NUM : Number num}.
Implicit Types (s : State num) (ev : Event num).
Local Open Scope string_scope.
Local Open Scope list_scope.

(** All branches of one transition. *)
Ltac step_branches :=
  cbn [step];
  unfold handleFileUpload, clickRandom, clickTemplate, handleMagicCaption,
    handleMagicCaption_settled, handleAiEdit, handleAiEdit_settled, addText,
    changeContent, changeColor, handleDownload, clickCaption, clickClosePanel,
    mouseDownText, handleMouseMove, handleMouseUp, clickContainer, clickTrash,
    mouseDownIncrease, mouseDownDecrease, removeText, handleMouseDown, updateText;
  repeat match goal with
         | |- context [match ?c with _ => _ end] => destruct c eqn:?
         end.

Lemma reachable_state (P : State num -> Prop) :
  P initial ->
  (forall s ev, P s -> P (step s ev)) ->
  forall evs : list (Event num), P (run evs initial).
Proof.
  intros H0 Hstep evs. unfold run.
  assert (G : forall s, P s -> P (fold_left step evs s)).
  { induction evs as [|ev evs IH]; intros s Hs; [exact Hs|].
    cbn [fold_left]. apply IH, Hstep, Hs. }
  apply G, H0.
Qed.

Lemma step_mode s ev : mode s = CAPTION -> mode (step s ev) = CAPTION.
Proof. intros H. destruct ev; step_branches; cbn; try exact H; reflexivity. Qed.

(** X6.  The page never leaves the caption mode: [AppMode.EDIT] is never
    set.  So the suggestions panel is rendered exactly when there are
    suggestions or a request is in flight, whichever of the two AI
    requests it is: while an edit is being processed the panel is shown
    too. *)
Theorem mode_is_always_caption :
  forall (evs : list (Event num)),
    let s := run evs initial in
    mode s = CAPTION
    /\ panel_rendered s = ((0 <? List.length (captions s))%nat || isProcessing s)
    /\ (blank (editPrompt s) = false -> image s <> "" ->
        panel_rendered (step s AiEditClicked) = true).
Proof.
  intros evs s.
  assert (Hm : mode s = CAPTION).
  { apply (reachable_state (fun s => mode s = CAPTION)); [reflexivity|].
    intros s0 ev. apply step_mode. }
  split; [exact Hm|]. split.
  - unfold panel_rendered. rewrite Hm. apply andb_true_r.
  - intros Hb Hi. cbn [step]. unfold handleAiEdit. rewrite truthy_trim, Hb.
    destruct (truthy (image s)) eqn:E; [|apply truthy_false in E; contradiction].
    unfold panel_rendered. cbn [isProcessing setIsProcessing mode captions negb orb].
    rewrite Hm, orb_true_r. reflexivity.
Qed.

Lemma step_drag_consistent s ev :
  (isDragging s = true <-> dragStartRef s <> None) ->
  (isDragging (step s ev) = true <-> dragStartRef (step s ev) <> None).
Proof.
  intros H. destruct ev; step_branches; cbn; try exact H;
    split; intros G; first [discriminate | congruence | intuition congruence].
Qed.

Lemma handleMouseMove_idle (e : Point num) s (live : State num) :
  isDragging s = false \/ selectedTextId s = None -> handleMouseMove e s live = live.
Proof.
  intros [H|H]; unfold handleMouseMove; rewrite H; [reflexivity|].
  destruct (isDragging s); reflexivity.
Qed.

(** X7.  A drag session is held consistently: in every state the page
    can reach, [isDragging] is set exactly when [dragStartRef] holds a
    pointer position.  Pointer moves outside a session do nothing: with
    the button up, or with nothing selected, in the render the handler
    belongs to, [handleMouseMove] leaves the whole state as it is, and so
    does a handler of any render once [dragStartRef] is cleared, and any
    run of moves after a pointer up or a pointer leave. *)
Theorem drag_session_consistent :
  forall (evs : list (Event num)) (moves : list (Point num)) (e : Point num),
    let s := run evs initial in
    (isDragging s = true <-> dragStartRef s <> None)
    /\ (isDragging s = false \/ selectedTextId s = None -> handleMouseMove e s s = s)
    /\ (forall live : State num,
          isDragging s = false \/ selectedTextId s = None ->
          handleMouseMove e s live = live)
    /\ (forall render : State num,
          dragStartRef s = None -> handleMouseMove e render s = s)
    /\ run (map (@MouseMoved num) moves) (step s MouseReleased) = step s MouseReleased.
Proof.
  intros evs moves e s. split.
  { apply (reachable_state (fun s => isDragging s = true <-> dragStartRef s <> None)).
    - cbn. split; [discriminate | intros C; contradiction C; reflexivity].
    - intros s0 ev. apply step_drag_consistent. }
  split; [apply handleMouseMove_idle|].
  split; [intros live; apply handleMouseMove_idle|].
  split.
  { intros render H. unfold handleMouseMove. rewrite H.
    destruct (isDragging render), (selectedTextId render); reflexivity. }
  induction moves as [|p moves IH]; [reflexivity|].
  unfold run in *. cbn [map fold_left]. cbn [step] in *.
  rewrite handleMouseMove_idle by (left; reflexivity). exact IH.
Qed.

End PageInvariants.

(** ** Ids issued by the clock *)

Section IssuedIds.

Context {num : Type} {NUM : Number num}.
Implicit Types (s : State num) (l : list (MemeText num)).
Local Open Scope list_scope.

Lemma toString_truthy (z : Z) : truthy (toString z) = true.
Proof.
  unfold toString. destruct (Z.to_int z) as [d|d]; destruct d; reflexivity.
Qed.

Lemma find_text_first l : forall i t,
  NoDup (map (@id num) l) -> nth_error l i = Some t ->
  find_text (id t) l = Some t.
Proof.
  unfold find_text. induction l as [|a l IH]; intros i t Hnd Hn;
    [destruct i; discriminate|].
  cbn [map] in Hnd. inversion Hnd as [|? ? Ha Hl]; subst. cbn [find].
  destruct i as [|i]; cbn in Hn.
  - injection Hn as ->. rewrite String.eqb_refl. reflexivity.
  - destruct (String.eqb_spec (id a) (id t)) as [E|_]; [|eapply IH; eassumption].
    exfalso. apply Ha. rewrite E. apply in_map. eapply nth_error_In. exact Hn.
Qed.

(** X8.  While the clock readings taken by the additions are pairwise
    distinct, the ids of the collection are pairwise distinct non-empty
    strings, each the decimal form of one of those readings, and every
    layer is the annotation that [texts.find] returns for its id: the
    layer under the pointer is the one a drag moves. *)
Theorem distinct_clock_distinct_layers :
  forall (evs : list (Event num)),
    NoDup (add_times evs) ->
    let s := run evs initial in
    NoDup (map (@id num) (texts s))
    /\ (forall t, In t (texts s) ->
          truthy (id t) = true
          /\ exists n, In n (add_times evs) /\ id t = toString n)
    /\ (forall i t, nth_error (texts s) i = Some t ->
          find_text (id t) (texts s) = Some t).
Proof.
  intros evs Hnd s.
  destruct (@run_ids_issued num NUM evs initial []) as [Hids Hall].
  - split; [constructor | intros t []].
  - exact Hnd.
  - intros n _ [].
  - fold s in Hids, Hall. split; [exact Hids|]. split.
    + intros t Ht. destruct (Hall t Ht) as [n [Hn E]]. split.
      * rewrite E. apply toString_truthy.
      * exists n. split; [|exact E]. rewrite app_nil_r in Hn.
        apply in_rev. exact Hn.
    + intros i t Hn. eapply find_text_first; eassumption.
Qed.

End IssuedIds.

Lemma distinct_clock_distinct_layers_witness :
  NoDup [1000%Z; 2000%Z]
  /\ NoDup (map (@id spec_float) (texts two_annotations))
  /\ forall i t, nth_error (texts two_annotations) i = Some t ->
       find_text (id t) (texts two_annotations) = Some t.
Proof.
  assert (H : NoDup [1000%Z; 2000%Z]).
  { constructor; [intros [E|[]]; discriminate E|].
    constructor; [intros []|constructor]. }
  split; [exact H|].
  destruct (@distinct_clock_distinct_layers spec_float _
              [AddTextClicked 1000%Z; AddTextClicked 2000%Z] H) as (H1 & _ & H3).
  split; [exact H1 | exact H3].
Defined.

(** ** Pointer moves handled before the page re-renders *)

Section DragBursts.

Context {num : Type} {NUM : Number num}.
Implicit Types (s : State num) (e : Point num).
Local Open Scope list_scope.

Lemma set_dragStartRef_same s : set_dragStartRef (dragStartRef s) s = s.
Proof. destruct s; reflexivity. Qed.

Lemma spread_xy_twice (sel : string) (a b c d : num) (t : MemeText num) :
  (fun t => if String.eqb (id t) sel then spread t (updates_xy a b) else t)
    ((fun t => if String.eqb (id t) sel then spread t (updates_xy c d) else t) t)
  = (fun t => if String.eqb (id t) sel then spread t (updates_xy a b) else t) t.
Proof.
  cbv beta. destruct (String.eqb (id t) sel) eqn:E; [|rewrite E; reflexivity].
  cbn [spread updates_xy id id_opt]. rewrite E. reflexivity.
Qed.

Lemma handleMouseMove_overwrites s (sel : string) (p' e' e : Point num) :
  isDragging s = true -> selectedTextId s = Some sel -> truthy sel = true ->
  handleMouseMove e s (handleMouseMove e' s (set_dragStartRef (Some p') s))
  = handleMouseMove e s (set_dragStartRef (Some e') s).
Proof.
  intros Hd Hs Ht. unfold handleMouseMove. rewrite Hd, Hs, Ht.
  cbn [dragStartRef set_dragStartRef].
  destruct (find (fun t => String.eqb (id t) sel) (texts s)) as [text|];
    cbn [dragStartRef set_dragStartRef updateText setTexts clientX clientY];
    [|reflexivity].
  unfold set_dragStartRef, updateText, setTexts; cbn. f_equal.
  rewrite map_map. apply map_ext. intros t. apply spread_xy_twice.
Qed.

(** X9.  When several pointer moves are handled before the page
    re-renders, every handler reads the annotations of the same render
    and the live [dragStartRef].  The state after such a burst is then
    the state after its last move alone, measured from the pointer
    position before it: the deltas of the earlier moves are lost.  The
    selected annotation (every annotation with the selected id) stands
    at the position it had at the render plus the last delta only, and
    [dragStartRef] holds the last pointer position. *)
Theorem moves_before_render_keep_last_delta :
  forall s (sel : string) (start : Point num) (es : list (Point num)) e,
    isDragging s = true -> selectedTextId s = Some sel -> truthy sel = true ->
    dragStartRef s = Some start ->
    let previous := last es start in
    let dx := (clientX e - clientX previous)%num in
    let dy := (clientY e - clientY previous)%num in
    let s' := moves_before_render (es ++ [e]) s in
    s' = handleMouseMove e s (set_dragStartRef (Some previous) s)
    /\ dragStartRef s' = Some {| clientX := clientX e; clientY := clientY e |}
    /\ texts s'
       = match find (fun t => String.eqb (id t) sel) (texts s) with
         | Some text =>
             map (fun t => if String.eqb (id t) sel
                           then spread t (updates_xy (x text + dx)%num (y text + dy)%num)
                           else t) (texts s)
         | None => texts s
         end.
Proof.
  intros s sel start es e Hd Hs Ht Hr previous dx dy s'.
  assert (E : s' = handleMouseMove e s (set_dragStartRef (Some previous) s)).
  { subst s' previous dx dy. clear - Hd Hs Ht Hr. revert e.
    induction es as [|e' es IH] using rev_ind; intros e.
    - cbn [app moves_before_render fold_left last]. unfold moves_before_render.
      cbn [fold_left]. rewrite <- Hr, set_dragStartRef_same. reflexivity.
    - unfold moves_before_render in *. rewrite fold_left_app. cbn [fold_left].
      rewrite IH, last_last. apply handleMouseMove_overwrites with (sel := sel); assumption. }
  split; [exact E|]. rewrite E. unfold handleMouseMove. rewrite Hd, Hs, Ht.
  cbn [dragStartRef set_dragStartRef].
  destruct (find (fun t => String.eqb (id t) sel) (texts s)); split; reflexivity.
Qed.

End DragBursts.

Lemma moves_before_render_keep_last_delta_witness :
  isDragging pointer_down = true
  /\ selectedTextId pointer_down = Some "1000"%string
  /\ truthy "1000" = true
  /\ dragStartRef pointer_down = Some (at_px 250 120)
  /\ moves_before_render [at_px 260 120; at_px 260 130] pointer_down
     = handleMouseMove (at_px 260 130) pointer_down
         (set_dragStartRef (Some (at_px 260 120)) pointer_down)
  /\ map (fun t => (x t, y t))
       (texts (moves_before_render [at_px 260 120; at_px 260 130] pointer_down))
     = [(Binary64.ofZ 400, Binary64.ofZ 310)].
Proof.
  split; [reflexivity|]. split; [reflexivity|]. split; [reflexivity|].
  split; [reflexivity|].
  destruct (@moves_before_render_keep_last_delta spec_float _ pointer_down "1000"%string
              (at_px 250 120) [at_px 260 120] (at_px 260 130)
              eq_refl eq_refl eq_refl eq_refl) as (H1 & _ & H3).
  split; [exact H1|].
  change ([at_px 260 120] ++ [at_px 260 130])
    with [at_px 260 120; at_px 260 130] in H3.
  rewrite H3. vm_compute. reflexivity.
Defined.

(** ** The toolbar and the store *)

Section Toolbar.

Context {num : Type} {NUM : Number num}.
Implicit Types (s : State num) (t : MemeText num) (l : list (MemeText num)).
Local Open Scope string_scope.
Local Open Scope list_scope.

Lemma state_eta s :
  {| image := image s; texts := texts s; selectedTextId := selectedTextId s;
     captions := captions s; isProcessing := isProcessing s; mode := mode s;
     editPrompt := editPrompt s; isDragging := isDragging s;
     dragStartRef := dragStartRef s; alerts := alerts s;
     downloads := downloads s |} = s.
Proof. destruct s; reflexivity. Qed.

Lemma updateText_absent (id0 : string) (u : Partial_MemeText num) s :
  (forall t, In t (texts s) -> id t <> id0) -> updateText id0 u s = s.
Proof.
  intros H. unfold updateText, setTexts. rewrite map_patch_absent by exact H.
  apply state_eta.
Qed.

Lemma filter_absent (id0 : string) l :
  (forall t, In t l -> id t <> id0) ->
  filter (fun t => negb (String.eqb (id t) id0)) l = l.
Proof.
  induction l as [|a l IH]; intros H; [reflexivity|]. cbn [filter].
  destruct (String.eqb_spec (id a) id0) as [E|_].
  - exfalso. apply (H a); [left; reflexivity | exact E].
  - cbn. f_equal. apply IH. intros t Ht. apply H. right. exact Ht.
Qed.

Lemma find_text_none (id0 : string) l :
  find_text id0 l = None <-> (forall t, In t l -> id t <> id0).
Proof.
  unfold find_text. split.
  - intros H t Ht E. apply (find_none _ _ H) in Ht. rewrite E, String.eqb_refl in Ht.
    discriminate.
  - intros H. induction l as [|a l IH]; [reflexivity|]. cbn [find].
    destruct (String.eqb_spec (id a) id0) as [E|_].
    + exfalso. apply (H a); [left; reflexivity | exact E].
    + apply IH. intros t Ht. apply H. right. exact Ht.
Qed.

(** X10.  What is typed into the toolbar is what the toolbar shows: with
    an annotation selected, [changeContent v] makes the content field
    read [v] and [changeColor v] makes the colour field read [v] (or
    [#FFFFFF] for an empty [v]); the first annotation with the selected
    id keeps its id, position and font size, and the selection stays. *)
Theorem toolbar_shows_what_was_typed :
  forall (v sel : string) (t : MemeText num) s,
    selectedTextId s = Some sel ->
    truthy sel = true ->
    find_text sel (texts s) = Some t ->
    (toolbar_content (changeContent v s) = v
     /\ toolbar_color (changeContent v s) = toolbar_color s
     /\ find_text sel (texts (changeContent v s))
        = Some {| id := id t; content := v; x := x t; y := y t;
                  fontSize := fontSize t; color := color t |}
     /\ selectedTextId (changeContent v s) = Some sel)
    /\ (toolbar_color (changeColor v s) = (if truthy v then v else "#FFFFFF")
        /\ toolbar_content (changeColor v s) = toolbar_content s
        /\ find_text sel (texts (changeColor v s))
           = Some {| id := id t; content := content t; x := x t; y := y t;
                     fontSize := fontSize t; color := v |}
        /\ selectedTextId (changeColor v s) = Some sel).
Proof.
  intros v sel t s Hsel Htr Hf.
  unfold changeContent, changeColor. rewrite Hsel, Htr.
  unfold toolbar_content, toolbar_color.
  cbn [selectedTextId updateText setTexts texts]. rewrite Hsel.
  fold (find_text sel (texts s)).
  fold (find_text sel
          (map (fun t0 => if String.eqb (id t0) sel
                          then spread t0 (updates_content v) else t0) (texts s))).
  fold (find_text sel
          (map (fun t0 => if String.eqb (id t0) sel
                          then spread t0 (updates_color v) else t0) (texts s))).
  rewrite !find_text_patched by reflexivity. rewrite Hf. cbn.
  repeat split. unfold truthy. destruct (String.eqb_spec v ""); [subst|]; reflexivity.
Qed.

(** X11.  Operations on an id that no annotation carries leave the whole
    state as it is: [updateText] always; [removeText] unless that id is
    the selection, which it then resets; typing in the toolbar while the
    selection names a deleted annotation (as after an upload).  With
    nothing selected the toolbar handlers do nothing either. *)
Theorem absent_id_is_ignored :
  forall (id0 : string) (u : Partial_MemeText num) (v : string) s,
    (forall t, In t (texts s) -> id t <> id0) ->
    updateText id0 u s = s
    /\ (selectedTextId s <> Some id0 -> removeText id0 s = s)
    /\ (selectedTextId s = Some id0 ->
        removeText id0 s = setSelectedTextId None s
        /\ changeContent v s = s /\ changeColor v s = s
        /\ toolbar_content s = "" /\ toolbar_color s = "#FFFFFF")
    /\ (selectedTextId s = None -> changeContent v s = s /\ changeColor v s = s).
Proof.
  intros id0 u v s Habs. split; [apply updateText_absent; exact Habs|].
  split.
  { intros Hsel. unfold removeText.
    destruct (strict_eq (selectedTextId s) id0) eqn:E.
    - apply strict_eq_true in E. contradiction.
    - unfold setTexts. rewrite filter_absent by exact Habs. apply state_eta. }
  split.
  { intros Hsel. unfold removeText, changeContent, changeColor,
      toolbar_content, toolbar_color. rewrite Hsel.
    cbn [strict_eq]. rewrite String.eqb_refl.
    fold (find_text id0 (texts s)).
    rewrite (proj2 (find_text_none id0 (texts s)) Habs).
    split.
    { unfold setTexts, setSelectedTextId. cbn.
      rewrite filter_absent by exact Habs. reflexivity. }
    destruct (truthy id0);
      repeat split; try reflexivity; apply updateText_absent; exact Habs. }
  intros Hsel. unfold changeContent, changeColor. rewrite Hsel. split; reflexivity.
Qed.

End Toolbar.

Section ToolbarRuns.

Local Open Scope string_scope.

Lemma toolbar_shows_what_was_typed_witness :
  toolbar_content (changeContent "ONE DOES NOT SIMPLY"%string two_annotations)
  = "ONE DOES NOT SIMPLY"%string
  /\ toolbar_color (changeColor "#FF0000" two_annotations) = "#FF0000"%string.
Proof.
  destruct (@toolbar_shows_what_was_typed spec_float "ONE DOES NOT SIMPLY"%string "2000"
              {| id := "2000"; content := "DOUBLE TAP TO EDIT"; x := lit 400;
                 y := lit 300; fontSize := lit 40; color := "#FFFFFF" |}
              two_annotations eq_refl eq_refl eq_refl) as [[H _] _].
  destruct (@toolbar_shows_what_was_typed spec_float "#FF0000" "2000"
              {| id := "2000"; content := "DOUBLE TAP TO EDIT"; x := lit 400;
                 y := lit 300; fontSize := lit 40; color := "#FFFFFF" |}
              two_annotations eq_refl eq_refl eq_refl) as [_ [H' _]].
  split; [exact H | exact H'].
Defined.

Lemma absent_id_is_ignored_witness :
  let s := handleFileUpload (Some (Some "data:image/png;base64,AAAA")) two_annotations in
  selectedTextId s = Some "2000"
  /\ changeContent "HELLO" s = s
  /\ removeText "1000" s = s.
Proof.
  intros s. split; [reflexivity|].
  destruct (@absent_id_is_ignored spec_float "2000" no_updates "HELLO" s)
    as (_ & _ & H & _); [intros t []|].
  destruct (@absent_id_is_ignored spec_float "1000" no_updates "HELLO" s)
    as (_ & H' & _); [intros t []|].
  split; [exact (proj1 (proj2 (H eq_refl))) | apply H'; discriminate].
Defined.

End ToolbarRuns.

(** ** Removal *)

Section Removal.

Context {num : Type} {NUM : Number num}.
Implicit Types (s : State num) (t : MemeText num) (l : list (MemeText num)).
Local Open Scope list_scope.

Lemma filter_swap (A : Type) (f g : A -> bool) (l : list A) :
  filter f (filter g l) = filter g (filter f l).
Proof.
  induction l as [|a l IH]; [reflexivity|]. cbn [filter].
  destruct (f a) eqn:Ef, (g a) eqn:Eg; cbn [filter]; rewrite ?Ef, ?Eg, IH; reflexivity.
Qed.

Lemma filter_twice (A : Type) (f : A -> bool) (l : list A) :
  filter f (filter f l) = filter f l.
Proof.
  induction l as [|a l IH]; [reflexivity|]. cbn [filter].
  destruct (f a) eqn:Ef; cbn [filter]; rewrite ?Ef, IH; reflexivity.
Qed.

Lemma removeText_record (id0 : string) s :
  removeText id0 s
  = {| image := image s;
       texts := filter (fun t => negb (String.eqb (id t) id0)) (texts s);
       selectedTextId :=
         if strict_eq (selectedTextId s) id0 then None else selectedTextId s;
       captions := captions s; isProcessing := isProcessing s; mode := mode s;
       editPrompt := editPrompt s; isDragging := isDragging s;
       dragStartRef := dragStartRef s; alerts := alerts s;
       downloads := downloads s |}.
Proof. unfold removeText. destruct (strict_eq (selectedTextId s) id0); reflexivity. Qed.

(** X12.  [removeText] keeps exactly the annotations with another id, in
    their order; removing the same id twice is the same as removing it
    once, and two removals give the same state in either order. *)
Theorem removeText_composes :
  forall (a b : string) s,
    (forall t, In t (texts (removeText a s)) <-> In t (texts s) /\ id t <> a)
    /\ removeText a (removeText a s) = removeText a s
    /\ removeText a (removeText b s) = removeText b (removeText a s).
Proof.
  intros a b s. split.
  { intros t. rewrite texts_removeText, filter_In.
    destruct (String.eqb_spec (id t) a); cbn; intuition congruence. }
  split.
  - rewrite (removeText_record a (removeText a s)), (removeText_record a s).
    cbn [image texts selectedTextId captions isProcessing mode editPrompt
         isDragging dragStartRef alerts downloads].
    rewrite filter_twice. f_equal.
    destruct (strict_eq (selectedTextId s) a) eqn:E; [reflexivity | rewrite E; reflexivity].
  - rewrite (removeText_record a (removeText b s)), (removeText_record b (removeText a s)),
      (removeText_record a s), (removeText_record b s).
    cbn [image texts selectedTextId captions isProcessing mode editPrompt
         isDragging dragStartRef alerts downloads].
    rewrite (filter_swap (fun t => negb (String.eqb (id t) a))). f_equal.
    destruct (selectedTextId s) as [i|]; cbn [strict_eq]; [|reflexivity].
    destruct (String.eqb i a) eqn:Ea, (String.eqb i b) eqn:Eb; cbn [strict_eq];
      rewrite ?Ea, ?Eb; reflexivity.
Qed.

Lemma filter_only_layer l : forall i t,
  NoDup (map (@id num) l) -> nth_error l i = Some t ->
  filter (fun u => negb (String.eqb (id u) (id t))) l = firstn i l ++ skipn (S i) l.
Proof.
  induction l as [|a l IH]; intros i t Hnd Hn; [destruct i; discriminate|].
  cbn [map] in Hnd. inversion Hnd as [|? ? Ha Hl]; subst. cbn [filter].
  destruct i as [|i]; cbn in Hn.
  - injection Hn as ->. rewrite String.eqb_refl. cbn.
    apply filter_absent. intros u Hu E. apply Ha. rewrite <- E. apply in_map. exact Hu.
  - destruct (String.eqb_spec (id a) (id t)) as [E|_].
    + exfalso. apply Ha. rewrite E. apply in_map. eapply nth_error_In. exact Hn.
    + cbn. f_equal. apply IH; assumption.
Qed.

(** X13.  With pairwise distinct ids, the delete control of the selected
    layer removes that layer and no other: the collection becomes the
    layers before it followed by the layers after it, and nothing is
    selected any more.  On a layer that is not the selection the control
    is not rendered and nothing happens. *)
Theorem trash_removes_its_layer :
  forall (i : nat) (t : MemeText num) s,
    NoDup (map (@id num) (texts s)) ->
    nth_error (texts s) i = Some t ->
    (selectedTextId s = Some (id t) ->
     texts (clickTrash i s) = firstn i (texts s) ++ skipn (S i) (texts s)
     /\ List.length (texts (clickTrash i s)) = pred (List.length (texts s))
     /\ selectedTextId (clickTrash i s) = None)
    /\ (selectedTextId s <> Some (id t) -> clickTrash i s = s).
Proof.
  intros i t s Hnd Hn. unfold clickTrash. rewrite Hn. split.
  - intros Hsel. rewrite Hsel. cbn [strict_eq]. rewrite String.eqb_refl.
    rewrite texts_removeText, selectedTextId_removeText, Hsel.
    cbn [strict_eq]. rewrite String.eqb_refl.
    rewrite (@filter_only_layer (texts s) i t Hnd Hn).
    split; [reflexivity|]. split; [|reflexivity].
    assert (Hi : (i < List.length (texts s))%nat)
      by (apply nth_error_Some; congruence).
    rewrite length_app, length_firstn, length_skipn. lia.
  - intros Hsel. destruct (strict_eq (selectedTextId s) (id t)) eqn:E; [|reflexivity].
    apply strict_eq_true in E. contradiction.
Qed.

End Removal.

Section RemovalRuns.

Local Open Scope string_scope.

Lemma trash_removes_its_layer_witness :
  NoDup (map (@id spec_float) (texts two_annotations))
  /\ map (@id spec_float) (texts (clickTrash 1 two_annotations)) = ["1000"]
  /\ selectedTextId (clickTrash 1 two_annotations) = None.
Proof.
  assert (H : NoDup (map (@id spec_float) (texts two_annotations))).
  { constructor; [intros [E|[]]; discriminate E|].
    constructor; [intros []|constructor]. }
  split; [exact H|].
  destruct (@trash_removes_its_layer spec_float 1
              {| id := "2000"; content := "DOUBLE TAP TO EDIT"; x := lit 400;
                 y := lit 300; fontSize := lit 40; color := "#FFFFFF" |}
              two_annotations H eq_refl) as [Hsel _].
  destruct (Hsel eq_refl) as (Ht & _ & Hs).
  split; [rewrite Ht; reflexivity | exact Hs].
Defined.

End RemovalRuns.

(** ** The exporter, further *)

Section ExporterFrame.

Context {num : Type} {NUM : Number num}.
Implicit Types (s : State num) (dom : Dom num).
Local Open Scope string_scope.
Local Open Scope list_scope.

Lemma painted_chunks (f : MemeText num -> num * num * num * num)
    (l : list (MemeText num)) :
  exists chunks,
    flat_map (fun t =>
      let '(tx, ty, font_px, lw) := f t in
      [ strokeText (content t) tx ty font_px "black" lw;
        fillText (content t) tx ty font_px (color t) ]) l
    = List.concat chunks
    /\ Forall2 (@painted num) l chunks.
Proof.
  induction l as [|t l [chunks [E F]]].
  - exists []. split; [reflexivity | constructor].
  - destruct (f t) as [[[tx ty] font_px] lw] eqn:Et.
    exists ([ strokeText (content t) tx ty font_px "black" lw;
              fillText (content t) tx ty font_px (color t) ] :: chunks).
    split.
    + cbn [flat_map List.concat]. rewrite Et, E. reflexivity.
    + constructor; [|exact F]. exists tx, ty, font_px, lw. reflexivity.
Qed.

(** X14.  An export never changes the page: it either returns the state
    as it is, or only appends one file to the downloads.  The file is
    named [meme-<clock>.png]; its canvas receives the image first, at the
    origin, and then the annotations in store order, each one stroked in
    black and then filled in its own colour with the same text, position
    and font size. *)
Theorem export_only_appends_a_file :
  forall dom (now : Z) s,
    handleDownload dom now s = s
    \/ exists d chunks,
         handleDownload dom now s = link_click d s
         /\ download_name d = ("meme-" ++ toString now ++ ".png")%string
         /\ canvas_ops d = drawImage (lit 0) (lit 0) :: List.concat chunks
         /\ Forall2 (@painted num) (texts s) chunks.
Proof.
  intros dom now s. unfold handleDownload.
  destruct (canvasRef_current dom) as [container|]; [|left; reflexivity].
  destruct (getContext_2d dom); [|left; reflexivity].
  destruct (querySelector_img container) as [imgEl|]; [|left; reflexivity].
  right.
  destruct (painted_chunks
              (fun text =>
                 let cw := width (container_rect container) in
                 let ch := height (container_rect container) in
                 let f := ((fontSize text / cw) * naturalWidth imgEl)%num in
                 (((x text / cw) * naturalWidth imgEl)%num,
                  ((y text / ch) * naturalHeight imgEl)%num,
                  f, (f * (lit 1 / lit 10))%num))
              (texts s)) as [chunks [E F]].
  eexists. exists chunks. split; [reflexivity|]. split; [reflexivity|].
  split; [|exact F]. cbn [canvas_ops]. f_equal. exact E.
Qed.

Lemma step_effects s (ev : Event num) :
  (may_alert ev = false -> alerts (step s ev) = alerts s)
  /\ (may_download ev = false -> downloads (step s ev) = downloads s).
Proof.
  split; intros H.
  - destruct ev; try discriminate H; cbn [step];
      try apply handleDownload_alerts;
      unfold handleFileUpload, clickRandom, clickTemplate, handleMagicCaption,
        handleMagicCaption_settled, handleAiEdit, handleAiEdit_settled, addText,
        changeContent, changeColor, clickCaption, clickClosePanel, mouseDownText,
        handleMouseMove, handleMouseUp, clickContainer, clickTrash,
        mouseDownIncrease, mouseDownDecrease, removeText, handleMouseDown, updateText;
      repeat match goal with
             | |- context [match ?c with _ => _ end] => destruct c eqn:?
             end;
      try reflexivity; cbn in H; try congruence.
    match goal with Hb : truthy _ = false |- _ => rewrite Hb in H end.
    discriminate H.
  - destruct ev; try discriminate H; cbn [step];
      unfold handleFileUpload, clickRandom, clickTemplate, handleMagicCaption,
        handleMagicCaption_settled, handleAiEdit, handleAiEdit_settled, addText,
        changeContent, changeColor, clickCaption, clickClosePanel, mouseDownText,
        handleMouseMove, handleMouseUp, clickContainer, clickTrash,
        mouseDownIncrease, mouseDownDecrease, removeText, handleMouseDown, updateText;
      repeat match goal with
             | |- context [match ?c with _ => _ end] => destruct c eqn:?
             end;
      reflexivity.
Qed.

(** X15.  Only the two AI flows ever show a notice, and only when they
    fail; only the export ever hands out a file.  Every other event, and
    so any run made of other events, leaves the notices and the
    downloads as they were. *)
Theorem notices_and_files_have_one_source :
  forall (evs : list (Event num)) s,
    (forallb (fun ev => negb (may_alert ev)) evs = true ->
     alerts (run evs s) = alerts s)
    /\ (forallb (fun ev => negb (may_download ev)) evs = true ->
        downloads (run evs s) = downloads s).
Proof.
  intros evs. unfold run.
  induction evs as [|ev evs IH]; intros s; [split; reflexivity|].
  cbn [forallb fold_left]. destruct (IH (step s ev)) as [IHa IHd].
  destruct (step_effects s ev) as [Ha Hd]. split; intros H;
    apply andb_prop in H; destruct H as [H1 H2];
    apply negb_true_iff in H1.
  - rewrite IHa by exact H2. apply Ha. exact H1.
  - rewrite IHd by exact H2. apply Hd. exact H1.
Qed.

End ExporterFrame.


(** *** An image shown at its natural size *)

Section ExportAtNaturalSize.

Import Binary64.
Local Open Scope string_scope.
Local Open Scope list_scope.

(** X16.  On binary64 numbers the export takes [(v / width) * width], and
    that is not always [v], also when the image is shown at its natural
    size.  With container and image 525 wide, an annotation of font size
    40 is exported with the font size just above 40.  With container and
    image of 512x384, every font size the two font controls can give and
    the default spot are exported as they are on the page. *)
Theorem export_at_natural_size_may_round :
  (let above_40 := S754_finite false 5629499534213121 (-47) in
   map snd (exported_geometry (page_at_natural_size 525 394) (one_annotation_of_size 40))
   = [None; Some above_40; Some above_40]
   /\ ofZ 40 = S754_finite false 5629499534213120 (-47)
   /\ SFcompare above_40 (ofZ 40) = Some Gt)
  /\ forall z, In z font_steps ->
       map (fun t => (x t, y t, fontSize t)) (texts (one_annotation_of_size z))
       = [(ofZ 400, ofZ 300, ofZ z)]
       /\ exported_geometry (page_at_natural_size 512 384) (one_annotation_of_size z)
          = [ (None, None, None);
              (Some (ofZ 400), Some (ofZ 300), Some (ofZ z));
              (Some (ofZ 400), Some (ofZ 300), Some (ofZ z)) ].
Proof.
  split; [cbv zeta; repeat split; vm_compute; reflexivity|].
  intros z Hz. vm_compute in Hz.
  repeat (destruct Hz as [<-|Hz]; [split; vm_compute; reflexivity|]).
  contradiction Hz.
Qed.

Lemma export_at_natural_size_may_round_witness :
  In 40%Z font_steps
  /\ exported_geometry (page_at_natural_size 512 384) (one_annotation_of_size 40)
     = [ (None, None, None);
         (Some (ofZ 400), Some (ofZ 300), Some (ofZ 40));
         (Some (ofZ 400), Some (ofZ 300), Some (ofZ 40)) ].
Proof.
  assert (H : In 40%Z font_steps) by (vm_compute; tauto).
  split; [exact H|].
  exact (proj2 (proj2 export_at_natural_size_may_round 40%Z H)).
Defined.

End ExportAtNaturalSize.

(** ** The font controls, further *)

Section FontControls.

Import Binary64.
Local Open Scope Z_scope.

Lemma font_steps_multiple (z : Z) :
  In z font_steps -> exists k, z = 4 * k /\ 3 <= k <= 30.
Proof.
  unfold font_steps. rewrite in_map_iff. intros [k [<- Hk]].
  apply in_seq in Hk. exists (Z.of_nat k). lia.
Qed.

Lemma control_on_layer (i : nat) (text : MemeText spec_float) (v : spec_float)
    (s : State spec_float) :
  nth_error (texts s) i = Some text ->
  nth_error (texts (updateText (id text) (updates_fontSize v) s)) i
  = Some {| id := id text; content := content text; x := x text; y := y text;
            fontSize := v; color := color text |}
  /\ selectedTextId (updateText (id text) (updates_fontSize v) s) = selectedTextId s.
Proof.
  intros Hn. split; [|reflexivity].
  rewrite texts_updateText, nth_error_map, Hn. cbn [option_map].
  rewrite String.eqb_refl. reflexivity.
Qed.

(** X17.  In every state the page can reach, "A+" followed by "A-" on
    the selected layer gives the annotation back as it was, unless its
    font size was already 120; "A-" followed by "A+" gives it back
    unless its font size was already 12. *)
Theorem font_controls_undo_each_other :
  forall (evs : list (Event spec_float)) (i : nat) (text : MemeText spec_float),
    let s := run evs initial in
    nth_error (texts s) i = Some text ->
    selectedTextId s = Some (id text) ->
    (fontSize text <> ofZ 120 ->
     nth_error (texts (mouseDownDecrease i (mouseDownIncrease i s))) i = Some text)
    /\ (fontSize text <> ofZ 12 ->
        nth_error (texts (mouseDownIncrease i (mouseDownDecrease i s))) i = Some text).
Proof.
  intros evs i text s Hn Hsel.
  pose proof (reachable_on_font_step evs) as Hinv. fold s in Hinv.
  rewrite Forall_forall in Hinv.
  destruct (Hinv text (nth_error_In _ _ Hn)) as [z [Hz Hf]].
  destruct (font_steps_multiple Hz) as [k [Hk Hrange]].
  destruct (font_step_facts Hz) as (_ & Eup & Edown & Hup & Hdown).
  assert (Eta : {| id := id text; content := content text; x := x text; y := y text;
                   fontSize := fontSize text; color := color text |} = text)
    by (destruct text; reflexivity).
  split; intros Hne.
  - assert (Hz' : z <> 120) by (intros ->; apply Hne; exact Hf).
    unfold mouseDownIncrease at 1. rewrite Hn, Hsel. cbn [strict_eq].
    rewrite String.eqb_refl.
    destruct (control_on_layer i (Math_min (lit 120) (fontSize text + lit 4)%num) s Hn)
      as [Hn1 Hs1].
    unfold mouseDownDecrease. rewrite Hn1, Hs1, Hsel. cbn [id strict_eq fontSize].
    rewrite String.eqb_refl.
    destruct (control_on_layer i
                (Math_max (lit 12)
                   (Math_min (lit 120) (fontSize text + lit 4)%num - lit 4)%num)
                _ Hn1) as [Hn2 _].
    cbn [id content x y color] in Hn2. rewrite Hn2. apply f_equal.
    etransitivity; [|exact Eta]. f_equal. rewrite Hf, Eup.
    replace (Z.min 120 (z + 4)) with (z + 4) in * by lia.
    destruct (font_step_facts Hup) as (_ & _ & E & _ & _). rewrite E.
    replace (Z.max 12 (z + 4 - 4)) with z by lia. reflexivity.
  - assert (Hz' : z <> 12) by (intros ->; apply Hne; exact Hf).
    unfold mouseDownDecrease at 1. rewrite Hn, Hsel. cbn [strict_eq].
    rewrite String.eqb_refl.
    destruct (control_on_layer i (Math_max (lit 12) (fontSize text - lit 4)%num) s Hn)
      as [Hn1 Hs1].
    unfold mouseDownIncrease. rewrite Hn1, Hs1, Hsel. cbn [id strict_eq fontSize].
    rewrite String.eqb_refl.
    destruct (control_on_layer i
                (Math_min (lit 120)
                   (Math_max (lit 12) (fontSize text - lit 4)%num + lit 4)%num)
                _ Hn1) as [Hn2 _].
    cbn [id content x y color] in Hn2. rewrite Hn2. apply f_equal.
    etransitivity; [|exact Eta]. f_equal. rewrite Hf, Edown.
    replace (Z.max 12 (z - 4)) with (z - 4) in * by lia.
    destruct (font_step_facts Hdown) as (_ & E & _ & _ & _). rewrite E.
    replace (Z.min 120 (z - 4 + 4)) with z by lia. reflexivity.
Qed.

Lemma font_controls_undo_each_other_witness :
  nth_error (texts (mouseDownDecrease 1 (mouseDownIncrease 1 two_annotations))) 1
  = nth_error (texts two_annotations) 1
  /\ nth_error (texts (mouseDownIncrease 1 (mouseDownDecrease 1 two_annotations))) 1
     = nth_error (texts two_annotations) 1.
Proof.
  destruct (@font_controls_undo_each_other
              [AddTextClicked 1000; AddTextClicked 2000] 1%nat
              {| id := "2000"; content := "DOUBLE TAP TO EDIT"; x := lit 400;
                 y := lit 300; fontSize := lit 40; color := "#FFFFFF" |}
              eq_refl eq_refl) as [H1 H2].
  split; [apply H1 | apply H2]; discriminate.
Defined.

Lemma SFcompare_Gt_Lt (a b : spec_float) :
  SFcompare a b = Some Gt -> SFcompare b a = Some Lt.
Proof.
  destruct a as [sa|sa| |sa ma ea], b as [sb|sb| |sb mb eb]; cbn;
    try discriminate; try (destruct sa; discriminate);
    try (destruct sb; discriminate);
    try (destruct sa, sb; (discriminate || reflexivity)).
  destruct sa, sb; try discriminate; try reflexivity;
    rewrite (Z.compare_antisym ea eb);
    destruct (ea ?= eb) eqn:E; cbn; try discriminate; try reflexivity;
    fold (Pos.compare ma mb); fold (Pos.compare mb ma);
    rewrite (Pos.compare_antisym ma mb);
    destruct (ma ?= mb)%positive; cbn; (discriminate || reflexivity).
Qed.

(** X18.  Whatever number the font size is, "A+" never asks for more
    than 120 and "A-" never for less than 12: the value each control
    passes to the store is on the right side of its bound, or NaN.  Each
    control tests one bound only, and a font size that is NaN stays NaN
    under both. *)
Theorem font_controls_keep_their_bound :
  forall (f : spec_float),
    let up := Math_min (lit 120) (f + lit 4)%num in
    let down := Math_max (lit 12) (f - lit 4)%num in
    (isNaN up = true \/ SFleb up (ofZ 120) = true)
    /\ (isNaN down = true \/ SFleb (ofZ 12) down = true)
    /\ (isNaN f = true -> isNaN up = true /\ isNaN down = true).
Proof.
  intros f up down. subst up down.
  cbn [Math_min Math_max nadd nsub lit Binary64.number].
  split; [|split].
  - generalize (add f (ofZ 4)). intros g. unfold min.
    destruct (SFcompare (ofZ 120) g) as [[| |]|] eqn:E.
    + right. destruct g; reflexivity.
    + right. reflexivity.
    + right. unfold SFleb. rewrite (SFcompare_Gt_Lt _ _ E). reflexivity.
    + left. reflexivity.
  - generalize (sub f (ofZ 4)). intros g. unfold max.
    destruct (SFcompare (ofZ 12) g) as [[| |]|] eqn:E.
    + right. destruct g; reflexivity.
    + right. unfold SFleb. rewrite E. reflexivity.
    + right. reflexivity.
    + left. reflexivity.
  - destruct f; try discriminate. intros _. split; reflexivity.
Qed.

End FontControls.

(** ** What is rendered for the selection *)

Section Selection.

Context {num : Type} {NUM : Number num}.
Implicit Types (s : State num) (ev : Event num) (l : list (MemeText num)).
Local Open Scope list_scope.

Lemma texts_change_truthy ev l l' :
  texts_change ev l l' ->
  (forall t, In t l -> truthy (id t) = true) ->
  forall t, In t l' -> truthy (id t) = true.
Proof.
  intros Hc Hl t Ht. destruct Hc as [| |now c _|id0 u Hu|id0].
  - apply Hl, Ht.
  - destruct Ht.
  - apply in_app_or in Ht. destruct Ht as [Ht|[<-|[]]]; [apply Hl, Ht|].
    apply toString_truthy.
  - apply in_map_iff in Ht. destruct Ht as [t0 [<- Ht0]].
    destruct (String.eqb (id t0) id0); [|apply Hl, Ht0].
    cbn. rewrite (@ui_patch_keeps_id num NUM l u Hu). apply Hl, Ht0.
  - apply filter_In in Ht. apply Hl, Ht.
Qed.

Lemma step_selection s ev :
  ids_truthy s ->
  forall sel, selectedTextId (step s ev) = Some sel -> truthy sel = true.
Proof.
  intros [Hids Hsel] sel.
  destruct ev; cbn [step];
    unfold handleFileUpload, clickRandom, clickTemplate, handleMagicCaption,
      handleMagicCaption_settled, handleAiEdit, handleAiEdit_settled, addText,
      changeContent, changeColor, handleDownload, clickCaption, clickClosePanel,
      mouseDownText, handleMouseMove, handleMouseUp, clickContainer, clickTrash,
      mouseDownIncrease, mouseDownDecrease, removeText, handleMouseDown, updateText;
    repeat match goal with
           | |- context [match ?c with _ => _ end] => destruct c eqn:?
           end;
    cbn; intros E;
    first [ exact (Hsel _ E)
          | discriminate E
          | apply Hsel; congruence
          | injection E as <-;
            first [ apply toString_truthy
                  | apply Hids; eapply nth_error_In; eassumption ] ].
Qed.

Lemma reachable_ids_truthy (evs : list (Event num)) : ids_truthy (run evs initial).
Proof.
  apply (reachable_state ids_truthy).
  - split; [intros t [] | discriminate].
  - intros s ev H. split; [|apply step_selection; exact H].
    apply (texts_change_truthy (step_texts_change s ev)). apply H.
Qed.

Lemma controls_of_layers l (sel : option string) : forall i j,
  NoDup (map (@id num) l) ->
  nth_error (map (fun text => strict_eq sel (id text)) l) i = Some true ->
  nth_error (map (fun text => strict_eq sel (id text)) l) j = Some true ->
  i = j.
Proof.
  intros i j Hnd Hi Hj. rewrite nth_error_map in Hi, Hj.
  destruct (nth_error l i) as [a|] eqn:Ea; [|discriminate].
  destruct (nth_error l j) as [b|] eqn:Eb; [|discriminate].
  cbn in Hi, Hj. injection Hi as Hi. injection Hj as Hj.
  apply strict_eq_true in Hi. apply strict_eq_true in Hj.
  assert (E : id a = id b) by congruence.
  apply (proj1 (NoDup_nth_error (map (@id num) l)) Hnd).
  - rewrite length_map. apply nth_error_Some. congruence.
  - rewrite !nth_error_map, Ea, Eb. cbn. congruence.
Qed.

(** X19.  In every state the page can reach, every id in use is a
    non-empty string, so the toolbar is rendered exactly when something
    is selected.  While the clock readings of the additions are pairwise
    distinct, at most one layer shows the delete and font controls, and
    with nothing selected no layer does. *)
Theorem selection_is_rendered_once :
  forall (evs : list (Event num)),
    let s := run evs initial in
    (toolbar_rendered s = true <-> selectedTextId s <> None)
    /\ (forall t, In t (texts s) -> truthy (id t) = true)
    /\ (selectedTextId s = None -> Forall (fun c => c = false) (controls_rendered s))
    /\ (NoDup (add_times evs) ->
        forall i j,
          nth_error (controls_rendered s) i = Some true ->
          nth_error (controls_rendered s) j = Some true -> i = j).
Proof.
  intros evs s. destruct (reachable_ids_truthy evs) as [Hids Hsel]. fold s in Hids, Hsel.
  split.
  { unfold toolbar_rendered. destruct (selectedTextId s) as [sel|] eqn:E.
    - rewrite (Hsel sel eq_refl). split; [discriminate | reflexivity].
    - split; [discriminate | intros C; contradiction C; reflexivity]. }
  split; [exact Hids|]. split.
  { intros E. unfold controls_rendered. rewrite E. apply Forall_map.
    apply Forall_forall. reflexivity. }
  intros Hnd i j. unfold controls_rendered.
  apply controls_of_layers.
  destruct (@run_ids_issued num NUM evs initial []) as [H _]; try exact H.
  - split; [constructor | intros t []].
  - exact Hnd.
  - intros n _ [].
Qed.

End Selection.
